(** * Listing search and ranking: a shallow embedding of the discovery
      search module (Elasticsearch client, [Listing.search],
      [Listing.updateScoreTags], [getExchangeRatesToUSD]).

    Conventions of the embedding.
    - JavaScript values that end up inside query trees are [jsval]
      (JSON trees plus [undefined]); numbers that occur in the queries are
      integers and are carried as [Z].
    - Painless [double]/[float] arithmetic is carried out in [Q]; painless
      [long] arithmetic is [Z] with the 64-bit wrap-around written out.
    - Asynchronous calls are sequenced in a state-and-exception monad over
      a [trace] that records log lines, rate-source lookups and the
      requests sent to the index engine.  A rejected promise that is
      awaited is a [Throw]; a promise that is never awaited cannot
      influence the caller. *)

From Stdlib Require Import ZArith QArith Lqa Ascii String List Lia.
From stdpp Require Import gmap strings list.

Import ListNotations.
Local Open Scope string_scope.
Local Open Scope Z_scope.

(* ------------------------------------------------------------------ *)
(** ** JavaScript values *)

#[local] Set Warnings "-register-all".
Inductive jsval : Type :=
| VUndefined
| VNull
| VBool (b : bool)
| VNum (n : Z)
| VStr (s : string)
| VArr (items : list jsval)
| VObj (props : list (string * jsval)).

(** Structural comparison of two values. *)
Fixpoint jsval_eqb (a b : jsval) : bool :=
  match a, b with
  | VUndefined, VUndefined | VNull, VNull => true
  | VBool x, VBool y => Bool.eqb x y
  | VNum x, VNum y => x =? y
  | VStr x, VStr y => String.eqb x y
  | VArr xs, VArr ys =>
      (fix go (xs ys : list jsval) : bool :=
         match xs, ys with
         | [], [] => true
         | x :: xs', y :: ys' => jsval_eqb x y && go xs' ys'
         | _, _ => false
         end) xs ys
  | VObj ps, VObj qs =>
      (fix go (ps qs : list (string * jsval)) : bool :=
         match ps, qs with
         | [], [] => true
         | (k, x) :: ps', (k', y) :: qs' =>
             String.eqb k k' && jsval_eqb x y && go ps' qs'
         | _, _ => false
         end) ps qs
  | _, _ => false
  end.

(** Property read [o.k]: the first binding wins (object literals of the
    source never repeat a key); a missing property and a read on a
    non-object primitive both give [undefined].  Reads on [undefined] or
    [null] raise in JavaScript and are handled where they can occur. *)
Fixpoint assoc_get (k : string) (props : list (string * jsval)) : jsval :=
  match props with
  | [] => VUndefined
  | (k', v) :: rest => if String.eqb k k' then v else assoc_get k rest
  end.

Definition js_prop (k : string) (v : jsval) : jsval :=
  match v with
  | VObj props => assoc_get k props
  | _ => VUndefined
  end.

(** [v || d] on the falsy values that can occur here. *)
Definition js_truthy (v : jsval) : bool :=
  match v with
  | VUndefined | VNull => false
  | VBool b => b
  | VNum n => negb (n =? 0)
  | VStr s => negb (String.eqb s "")
  | VArr _ | VObj _ => true
  end.

Definition js_or (v d : jsval) : jsval := if js_truthy v then v else d.

(** lodash [get(obj, path, default)]: walk the path, stop at anything that
    is not an object, and substitute the default for [undefined]. *)
Fixpoint get_path (path : list string) (v : jsval) : jsval :=
  match path with
  | [] => v
  | k :: rest => get_path rest (js_prop k v)
  end.

Definition get (v : jsval) (path : list string) (default : jsval) : jsval :=
  match get_path path v with
  | VUndefined => default
  | r => r
  end.

(** [s.split(sep)] for a one-character separator. *)
Fixpoint split (sep : ascii) (s : string) : list string :=
  match s with
  | EmptyString => [EmptyString]
  | String c rest =>
      if Ascii.eqb c sep then EmptyString :: split sep rest
      else match split sep rest with
           | h :: t => String c h :: t
           | [] => [String c EmptyString]
           end
  end.

(** [JSON.parse(JSON.stringify(v))] on a defined value: an [undefined]
    array element becomes [null], an [undefined] property is dropped. *)
Fixpoint json_clone (v : jsval) : jsval :=
  match v with
  | VArr items =>
      VArr (List.map (fun x => match x with
                               | VUndefined => VNull
                               | _ => json_clone x
                               end) items)
  | VObj props =>
      VObj ((fix go (ps : list (string * jsval)) : list (string * jsval) :=
               match ps with
               | [] => []
               | (k, x) :: rest =>
                   match x with
                   | VUndefined => go rest
                   | _ => (k, json_clone x) :: go rest
                   end
               end) props)
  | _ => v
  end.

(* ------------------------------------------------------------------ *)
(** ** Errors *)

Inductive error : Type :=
| TypeError (what : string)
| Rejected (who : string)
| NotWhitelisted (sort order : string).

Inductive result (A : Type) : Type :=
| Ok (a : A)
| Throw (e : error).
Arguments Ok {A} a.
Arguments Throw {A} e.

Definition rbind {A B} (r : result A) (k : A -> result B) : result B :=
  match r with
  | Ok a => k a
  | Throw e => Throw e
  end.

(* ------------------------------------------------------------------ *)
(** ** Query trees *)

(** [esQuery.bool]: the four clause arrays of a boolean query. *)
Module BoolQuery.
Record t : Type := mk {
  must : list jsval;
  must_not : list jsval;
  should : list jsval;
  filter : list jsval
}.

Definition to_js (q : t) : jsval :=
  VObj [("bool", VObj [("must", VArr (must q));
                       ("must_not", VArr (must_not q));
                       ("should", VArr (should q));
                       ("filter", VArr (filter q))])].

Definition push_must (c : jsval) (q : t) : t :=
  mk (must q ++ [c]) (must_not q) (should q) (filter q).
Definition push_must_not (c : jsval) (q : t) : t :=
  mk (must q) (must_not q ++ [c]) (should q) (filter q).
Definition push_should (c : jsval) (q : t) : t :=
  mk (must q) (must_not q) (should q ++ [c]) (filter q).
Definition push_filter (c : jsval) (q : t) : t :=
  mk (must q) (must_not q) (should q) (filter q ++ [c]).

(** The deep copy, array by array. *)
Definition clone_item (x : jsval) : jsval :=
  match x with
  | VUndefined => VNull
  | _ => json_clone x
  end.

Definition clone (q : t) : t :=
  mk (List.map clone_item (must q)) (List.map clone_item (must_not q))
     (List.map clone_item (should q)) (List.map clone_item (filter q)).

(** The population a boolean query selects, for any semantics [leaf] of
    the leaf clauses: every [must] and [filter] clause holds and no
    [must_not] clause does; [should] clauses only rank. *)
Definition selects {D : Type} (leaf : jsval -> D -> bool) (q : t) (d : D)
  : bool :=
  forallb (fun c => leaf c d) (must q)
  && forallb (fun c => leaf c d) (filter q)
  && negb (existsb (fun c => leaf c d) (must_not q)).

(** What the claim about the aggregation query asks for: the ranked
    query with its [should] clauses removed. *)
Definition strip_should (q : t) : t :=
  mk (must q) (must_not q) [] (filter q).
End BoolQuery.

(** A structured filter as [search] receives it. *)
Module ListingFilter.
Record t : Type := mk {
  name : string;
  operator : string;
  value : jsval;
  valueType : string
}.
End ListingFilter.

Definition withdrawn_clause : jsval :=
  VObj [("match", VObj [("status", VStr "withdrawn")])].
Definition invalid_clause : jsval :=
  VObj [("term", VObj [("valid", VBool false)])].
Definition hidden_clause : jsval :=
  VObj [("terms", VObj [("scoreTags", VArr [VStr "Hide"; VStr "Delete"])])].

Definition all_text_clause (query : string) : jsval :=
  VObj [("match",
         VObj [("all_text",
                VObj [("query", VStr query);
                      ("fuzziness", VStr "AUTO");
                      ("minimum_should_match", VStr "-20%")])])].
Definition title_clause (query : string) : jsval :=
  VObj [("match",
         VObj [("title",
                VObj [("query", VStr query);
                      ("boost", VNum 2);
                      ("fuzziness", VStr "AUTO")])])].
Definition phrase_clause (query : string) : jsval :=
  VObj [("match_phrase",
         VObj [("all_text",
                VObj [("query", VStr query); ("slop", VNum 50)])])].
Definition match_all_clause : jsval := VObj [("match_all", VObj [])].

(** [esQuery] as it stands when the deep copy is taken: the literal, the
    two visibility pushes, then the text clauses. *)
Definition esQuery_init : BoolQuery.t :=
  BoolQuery.mk [] [withdrawn_clause] [] [].

Definition esQuery_text (query : option string) : BoolQuery.t :=
  let q := BoolQuery.push_must_not hidden_clause
             (BoolQuery.push_must_not invalid_clause esQuery_init) in
  match query with
  | Some s =>
      if negb (String.eqb s "") then
        BoolQuery.push_should (phrase_clause s)
          (BoolQuery.push_should (title_clause s)
             (BoolQuery.push_must (all_text_clause s) q))
      else BoolQuery.push_must match_all_clause q
  | None => BoolQuery.push_must match_all_clause q
  end.

Definition esAggregationQuery (query : option string) : BoolQuery.t :=
  BoolQuery.clone (esQuery_text query).

(** The body of the [filters.forEach] callback up to the push. *)
Definition innerFilter (f : ListingFilter.t) : result jsval :=
  let name := ListingFilter.name f in
  if String.eqb (ListingFilter.operator f) "GREATER_OR_EQUAL" then
    Ok (VObj [("range", VObj [(name, VObj [("gte", ListingFilter.value f)])])])
  else if String.eqb (ListingFilter.operator f) "LESSER_OR_EQUAL" then
    Ok (VObj [("range", VObj [(name, VObj [("lte", ListingFilter.value f)])])])
  else if String.eqb (ListingFilter.operator f) "CONTAINS"
          && String.eqb (ListingFilter.valueType f) "ARRAY_STRING" then
    match ListingFilter.value f with
    | VStr s =>
        Ok (VObj [("bool",
                   VObj [("should",
                          VArr (List.map
                                  (fun singleValue =>
                                     VObj [("term",
                                            VObj [(name, VStr singleValue)])])
                                  (split "," s)))])])
    | _ => Throw (TypeError "filter.value.split is not a function")
    end
  else if String.eqb (ListingFilter.operator f) "EQUALS" then
    Ok (VObj [("term", VObj [(name, ListingFilter.value f)])])
  else Ok (VObj []).

Fixpoint filters_forEach (filters : list ListingFilter.t) (q : BoolQuery.t)
  : result BoolQuery.t :=
  match filters with
  | [] => Ok q
  | f :: rest =>
      rbind (innerFilter f)
            (fun c => filters_forEach rest (BoolQuery.push_filter c q))
  end.

(** [filters === undefined] is replaced by the empty array. *)
Definition filters_or_empty (filters : option (list ListingFilter.t))
  : list ListingFilter.t :=
  match filters with
  | Some fs => fs
  | None => []
  end.

(** The ranked boolean query: [esQuery] after the filter loop. *)
Definition esQuery (query : option string)
                   (filters : option (list ListingFilter.t))
  : result BoolQuery.t :=
  filters_forEach (filters_or_empty filters) (esQuery_text query).

(* ------------------------------------------------------------------ *)
(** ** Requests, responses and the index engine *)

(** The resolved sort: [[]] (no explicit sort), the price script sort with
    its parameters, or the plain field sort of the [default:] branch. *)
Inductive sort_spec : Type :=
| NoSort
| ScriptSort (order : string) (exchangeRates : gmap string string)
| FieldSort (sort order : string).

(** [scoreQuery]: the function-score wrapper with the script parameter
    [now]. *)
Record score_query : Type := mkScoreQuery {
  fs_query : BoolQuery.t;
  fs_now : Z
}.

(** The body of the ranked search request. *)
Module SearchBody.
Record t : Type := mk {
  from : Z;
  size : Z;
  query : score_query;
  sort : sort_spec;
  _source : list string
}.
End SearchBody.

(** The body of the aggregation request (min and max of [price.amount]). *)
Module AggregationBody.
Record t : Type := mk {
  query : BoolQuery.t;
  _source : list string
}.
End AggregationBody.

Record search_response : Type := mkSearchResponse {
  hits : list (string * jsval);          (* [_id], [_source] *)
  total : Z
}.

Record aggregation_response : Type := mkAggregationResponse {
  max_price : jsval;
  min_price : jsval
}.

Inductive engine_request : Type :=
| ReqGet (id : string)
| ReqUpdate (id : string) (scoreTags : list string) (scoreMultiplier : jsval)
| ReqSearch (body : SearchBody.t)
| ReqAggregation (body : AggregationBody.t).

(** The index engine is an external service.  What it stores and how it
    matches, scores and sorts is left open ([ranked] is the full ordered
    list of the documents a ranked request selects); how it pages a
    result and filters the returned [_source] is its documented request
    contract and is written out in [search].  What the engine does with a
    negative [from] or [size] is not part of that contract: the model lets
    such a request fail, and the properties are stated for requests that
    are answered or for values that are not negative. *)
Module Engine.
Record t : Type := mk {
  get : string -> result jsval;
  update : string -> list string -> jsval -> result unit;
  ranked : score_query -> sort_spec -> result (list (string * jsval));
  aggregate : BoolQuery.t -> result aggregation_response
}.

(** Source filtering: only the listed top-level fields are returned. *)
Definition source_filter (fields : list string) (doc : jsval) : jsval :=
  match doc with
  | VObj props =>
      VObj (List.filter
              (fun kv => existsb (String.eqb (fst kv)) fields) props)
  | v => v
  end.

Definition search (e : t) (body : SearchBody.t) : result search_response :=
  rbind (ranked e (SearchBody.query body) (SearchBody.sort body))
    (fun matches =>
       if (SearchBody.from body <? 0) || (SearchBody.size body <? 0) then
         Throw (Rejected "search: negative from or size")
       else
         let page := firstn (Z.to_nat (SearchBody.size body))
                       (skipn (Z.to_nat (SearchBody.from body)) matches) in
         Ok (mkSearchResponse
               (List.map
                  (fun h => (fst h,
                             source_filter (SearchBody._source body) (snd h)))
                  page)
               (Z.of_nat (length matches)))).
End Engine.

(** The projection of a hit that [search] returns. *)
Module ListingView.
Record price_t : Type := mkPrice {
  amount : jsval;
  currency : jsval
}.
Record t : Type := mk {
  id : string;
  title : jsval;
  category : jsval;
  subCategory : jsval;
  description : jsval;
  price : price_t
}.
End ListingView.

Record stats_t : Type := mkStats {
  maxPrice : jsval;
  minPrice : jsval;
  totalNumberOfListings : Z
}.

Record search_result : Type := mkSearchResult {
  listings : list ListingView.t;
  stats : stats_t
}.

(* ------------------------------------------------------------------ *)
(** ** Effects *)

Inductive log_entry : Type :=
| ErrorRateMissing (currency : string)
| ErrorRatesUnavailable (e : error)
| ErrorException (e : error)
| DebugExchangeRates (exchangeRates : gmap string string)
| DebugListings (ls : list ListingView.t).

Record trace : Type := mkTrace {
  log : list log_entry;
  lookups : list string;               (* keys asked of the rate source *)
  requests : list engine_request       (* requests sent to the engine *)
}.

Definition no_trace : trace := mkTrace [] [] [].

(** What a run depends on besides its arguments. *)
Record env : Type := mkEnv {
  getTime : Z;                                  (* [new Date().getTime()] *)
  redis_required : bool;                        (* [require('../lib/redis')] *)
  redis_get : string -> result (option string); (* settled [getAsync] *)
  engine : Engine.t;
  scoreListing : jsval -> result jsval          (* [scoring.scoreListing] *)
}.

Definition M (A : Type) : Type := trace -> result A * trace.

Definition ret {A} (a : A) : M A := fun t => (Ok a, t).
Definition throw {A} (e : error) : M A := fun t => (Throw e, t).
Definition bind {A B} (m : M A) (k : A -> M B) : M B :=
  fun t => match m t with
           | (Ok a, t') => k a t'
           | (Throw e, t') => (Throw e, t')
           end.
Definition try_catch {A} (m : M A) (handler : error -> M A) : M A :=
  fun t => match m t with
           | (Ok a, t') => (Ok a, t')
           | (Throw e, t') => handler e t'
           end.

Notation "x <- m ;; k" := (bind m (fun x => k))
  (at level 100, m at next level, right associativity).
Notation "m ;;; k" := (bind m (fun _ => k))
  (at level 100, right associativity).

(** [await p] on a settled promise. *)
Definition await {A} (p : result A) : M A := fun t => (p, t).

Definition logger (l : log_entry) : M unit :=
  fun t => (Ok tt, mkTrace (log t ++ [l]) (lookups t) (requests t)).

(** Starting a call returns its promise at once and leaves a record. *)
Definition getAsync (e : env) (key : string) : M (result (option string)) :=
  fun t => (Ok (redis_get e key),
            mkTrace (log t) (lookups t ++ [key]) (requests t)).

Definition send {A} (r : engine_request) (outcome : result A) : M (result A) :=
  fun t => (Ok outcome, mkTrace (log t) (lookups t) (requests t ++ [r])).

Fixpoint mapM {A B} (f : A -> M B) (l : list A) : M (list B) :=
  match l with
  | [] => ret []
  | x :: rest => y <- f x ;; ys <- mapM f rest ;; ret (y :: ys)
  end.

(** [Promise.all]: a rejection rejects the whole.  With several
    rejections JavaScript raises the one that arrives first; the model
    takes the first in array order, and no property depends on which of
    several rejections is raised. *)
Fixpoint Promise_all {A} (ps : list (result A)) : result (list A) :=
  match ps with
  | [] => Ok []
  | p :: rest =>
      rbind p (fun a => rbind (Promise_all rest) (fun r => Ok (a :: r)))
  end.

(* ------------------------------------------------------------------ *)
(** ** Exchange rates *)

Definition default_exchangeRates : gmap string string :=
  list_to_map [("fiat-CNY", "0.14"); ("fiat-EUR", "1.12");
               ("fiat-GBP", "1.22"); ("fiat-JPY", "0.0094");
               ("fiat-KRW", "0.00082"); ("fiat-SGD", "0.72");
               ("fiat-USD", "1.0"); ("token-DAI", "1.0");
               ("token-ETH", "200.0")].

(** [currency.split('-')[1]]; [None] is [undefined]. *)
Definition resolvedCurrency (currency : string) : option string :=
  nth_error (split "-" currency) 1.

(** The template literal [`${resolvedCurrency}-USD_price`]. *)
Definition rate_key (rc : option string) : string :=
  (match rc with Some c => c | None => "undefined" end) ++ "-USD_price".

Definition rate_promise (e : env) (currency : string)
  : M (result (option string)) :=
  let rc := resolvedCurrency currency in
  if bool_decide (rc = Some "USD") then ret (Ok (Some "1"))
  else getAsync e (rate_key rc).

Definition store_rate (cr : string * option string)
                      (exchangeRates : gmap string string)
  : M (gmap string string) :=
  match snd cr with
  | None => logger (ErrorRateMissing (fst cr)) ;;; ret exchangeRates
  | Some r => ret (<[fst cr := r]> exchangeRates)
  end.

Fixpoint store_rates (crs : list (string * option string))
                     (exchangeRates : gmap string string)
  : M (gmap string string) :=
  match crs with
  | [] => ret exchangeRates
  | cr :: rest => m <- store_rate cr exchangeRates ;; store_rates rest m
  end.

Definition getExchangeRatesToUSD (e : env) (currencies : list string)
  : M (gmap string string) :=
  exchangeRates <-
    try_catch
      ((if redis_required e then ret tt
        else throw (Rejected "require('../lib/redis')")) ;;;
       promises <- mapM (rate_promise e) currencies ;;
       result <- await (Promise_all promises) ;;
       store_rates (combine currencies result) ∅)
      (fun err =>
         logger (ErrorRatesUnavailable err) ;;; ret default_exchangeRates) ;;
  logger (DebugExchangeRates exchangeRates) ;;;
  ret exchangeRates.

(* ------------------------------------------------------------------ *)
(** ** Sort resolution *)

Definition currencies : list string :=
  ["fiat-CNY"; "fiat-EUR"; "fiat-GBP"; "fiat-JPY"; "fiat-KRW"; "fiat-SGD";
   "fiat-USD"; "token-DAI"; "token-ETH"].

Definition sortWhiteList : list string := ["price.amount"].
Definition orderWhiteList : list string := ["asc"; "desc"].

Definition includes (l : list string) (s : string) : bool :=
  existsb (String.eqb s) l.

(** [s && s.length > 0] for an optional string argument. *)
Definition is_set (s : option string) : bool :=
  match s with
  | Some x => negb (String.eqb x "")
  | None => false
  end.

Definition or_empty (s : option string) : string :=
  match s with
  | Some x => x
  | None => ""
  end.

Definition getSortQuery (e : env) (sort order : option string) : M sort_spec :=
  exchangeRates <- getExchangeRatesToUSD e currencies ;;
  if is_set sort && is_set order then
    let s := or_empty sort in
    let o := or_empty order in
    try_catch
      (if includes sortWhiteList s && includes orderWhiteList o then
         if String.eqb s "price.amount" then ret (ScriptSort o exchangeRates)
         else ret (FieldSort s o)
       else throw (NotWhitelisted s o))
      (fun err => logger (ErrorException err) ;;; ret NoSort)
  else ret NoSort.

(* ------------------------------------------------------------------ *)
(** ** The painless scripts *)

(** Java [long]: 64-bit two's complement. *)
Definition wrap64 (z : Z) : Z := (z + 2 ^ 63) mod 2 ^ 64 - 2 ^ 63.

Definition recentBoostAmount : Q := 1 # 2.
Definition boostPeriod : Z := 18 * 24 * 60 * 60.

(** The [script_score] source.  [scoreMultiplier] and
    [createdEvent_timestamp] are the document values, [None] when the
    guard of the script finds none. *)
Definition score_script (now : Z) (scoreMultiplier : option Q)
                        (createdEvent_timestamp : option Z) (_score : Q) : Q :=
  let score := _score in
  let score := match scoreMultiplier with
               | Some m => (score * m)%Q
               | None => score
               end in
  match createdEvent_timestamp with
  | Some ts =>
      let age := wrap64 (now - ts) in
      if (0 <? age) && (age <? boostPeriod) then
        (score * (1 + (inject_Z age / inject_Z boostPeriod) * recentBoostAmount))%Q
      else score
  | None => score
  end.

(** The factor by which the recency branch multiplies the score. *)
Definition boost_factor (now ts : Z) : Q :=
  let age := wrap64 (now - ts) in
  if (0 <? age) && (age <? boostPeriod) then
    (1 + (inject_Z age / inject_Z boostPeriod) * recentBoostAmount)%Q
  else 1%Q.

(** The score the engine computes for a request sent by [search]: the
    script runs with the [now] parameter of that request. *)
Definition ranking_score (q : score_query) (scoreMultiplier : option Q)
                         (createdEvent_timestamp : option Z) (_score : Q) : Q :=
  score_script (fs_now q) scoreMultiplier createdEvent_timestamp _score.

Definition as_string (v : jsval) : option string :=
  match v with
  | VStr s => Some s
  | _ => None
  end.

(** The sort script of [price.amount].  [parseFloat] stands for
    [Float.parseFloat]: [None] when it raises.  Every other way the [try]
    block can raise (a missing [price], a value that is not a string, a
    currency without a rate) also ends in the [catch]. *)
Definition price_sort_script (parseFloat : string -> option Q)
    (order : string) (exchangeRates : gmap string string) (_source : jsval)
  : Q :=
  let attempt : option Q :=
    a ← as_string (get_path ["price"; "amount"] _source);
    amount ← parseFloat a;
    c ← as_string (get_path ["price"; "currency"; "id"] _source);
    r ← exchangeRates !! c;
    rate ← parseFloat r;
    Some (amount * rate)%Q in
  match attempt return Q with
  | Some v => v
  | None => if String.eqb order "asc" then 1000000000%Q else 0%Q
  end.

(** Plain decimal numerals, the part of [Float.parseFloat] the examples
    need: an optional minus sign, digits, an optional fraction. *)
Definition digit_of (c : ascii) : option Z :=
  let n := Z.of_nat (nat_of_ascii c) in
  if (48 <=? n) && (n <=? 57) then Some (n - 48) else None.

Fixpoint digits_from (acc : Z) (s : string) : option Z :=
  match s with
  | EmptyString => Some acc
  | String c rest =>
      match digit_of c with
      | Some d => digits_from (10 * acc + d) rest
      | None => None
      end
  end.

Definition unsigned_decimal (s : string) : option Q :=
  match split "." s with
  | [i] =>
      if String.eqb i "" then None
      else n ← digits_from 0 i; Some (inject_Z n)
  | [i; f] =>
      if String.eqb i "" && String.eqb f "" then None
      else
        n ← digits_from 0 i;
        m ← digits_from 0 f;
        Some (inject_Z n + inject_Z m / inject_Z (10 ^ Z.of_nat (String.length f)))%Q
  | _ => None
  end.

Definition parse_decimal (s : string) : option Q :=
  match s with
  | String "-" rest => q ← unsigned_decimal rest; Some (- q)%Q
  | _ => unsigned_decimal s
  end.

(* ------------------------------------------------------------------ *)
(** ** Listing *)

Fixpoint assoc_set (k : string) (v : jsval) (props : list (string * jsval))
  : list (string * jsval) :=
  match props with
  | [] => [(k, v)]
  | (k', v') :: rest =>
      if String.eqb k k' then (k, v) :: rest
      else (k', v') :: assoc_set k v rest
  end.

(** [o.k = v] in strict mode. *)
Definition set_prop (k : string) (v : jsval) (o : jsval) : result jsval :=
  match o with
  | VObj props => Ok (VObj (assoc_set k v props))
  | _ => Throw (TypeError ("Cannot set property " ++ k))
  end.

(** [o.k] where [o] may be [undefined] or [null]. *)
Definition read_prop (k : string) (o : jsval) : result jsval :=
  match o with
  | VUndefined | VNull => Throw (TypeError ("Cannot read property " ++ k))
  | _ => Ok (js_prop k o)
  end.

Definition updateScoreTags (e : env) (id : string) (scoreTags : list string)
  : M jsval :=
  p <- send (ReqGet id) (Engine.get (engine e) id) ;;
  result <- await p ;;
  listing <- await (rbind (read_prop "_source" result)
                      (set_prop "scoreTags" (VArr (List.map VStr scoreTags)))) ;;
  scored <- await (scoreListing e listing) ;;
  scoreMultiplier <- await (read_prop "scoreMultiplier" scored) ;;
  listing <- await (set_prop "scoreMultiplier" scoreMultiplier listing) ;;
  send (ReqUpdate id scoreTags scoreMultiplier)
       (Engine.update (engine e) id scoreTags scoreMultiplier) ;;;
  ret listing.

Definition search_source : list string :=
  ["title"; "description"; "price"; "commissionPerUnit"; "scoreMultiplier";
   "scoreTags"].

Definition project_hit (hit : string * jsval) : M ListingView.t :=
  let _id := fst hit in
  let _source := snd hit in
  title <- await (read_prop "title" _source) ;;
  ret (ListingView.mk _id title
         (js_prop "category" _source)
         (js_prop "subCategory" _source)
         (js_prop "description" _source)
         (ListingView.mkPrice
            (get _source ["price"; "amount"] (VStr "0"))
            (get _source ["price"; "currency"; "id"] (VStr "fiat-USD")))).

(** [Listing.search].  Both requests are sent before either is awaited.
    The two awaits stand for [Promise.all]: when both requests are
    rejected the source raises whichever rejection arrives first, the
    model the ranked one, and no property depends on which. *)
Definition search (e : env) (query sort order : option string)
    (filters : option (list ListingFilter.t)) (numberOfItems offset : Z)
  : M search_result :=
  let esAggregationQuery := esAggregationQuery query in
  esQuery <- await (esQuery query filters) ;;
  let scoreQuery := mkScoreQuery esQuery (getTime e) in
  let numberOfItems := if numberOfItems =? -1 then 1000 else numberOfItems in
  sortQuery <- getSortQuery e sort order ;;
  let body := SearchBody.mk offset numberOfItems scoreQuery sortQuery
                search_source in
  searchRequest <- send (ReqSearch body) (Engine.search (engine e) body) ;;
  let aggregationBody := AggregationBody.mk esAggregationQuery ["_id"] in
  aggregationRequest <-
    send (ReqAggregation aggregationBody)
         (Engine.aggregate (engine e) esAggregationQuery) ;;
  searchResponse <- await searchRequest ;;
  aggregationResponse <- await aggregationRequest ;;
  listings <- mapM project_hit (hits searchResponse) ;;
  let stats := mkStats (js_or (max_price aggregationResponse) (VNum 0))
                       (js_or (min_price aggregationResponse) (VNum 0))
                       (total searchResponse) in
  logger (DebugListings listings) ;;;
  ret (mkSearchResult listings stats).

(* ------------------------------------------------------------------ *)
(** ** Reading a run *)

Definition sent_search_bodies (t : trace) : list SearchBody.t :=
  omap (fun r => match r with ReqSearch b => Some b | _ => None end)
       (requests t).

Definition sent_aggregation_bodies (t : trace) : list AggregationBody.t :=
  omap (fun r => match r with ReqAggregation b => Some b | _ => None end)
       (requests t).

(** A trace with more log lines, lookups and requests appended. *)
Definition extend (l : list log_entry) (ks : list string)
                  (rs : list engine_request) (t : trace) : trace :=
  mkTrace (log t ++ l) (lookups t ++ ks) (requests t ++ rs).

(** The quote side of the currency key is USD. *)
Definition usd_quoted (currency : string) : bool :=
  bool_decide (resolvedCurrency currency = Some "USD").

(** What the promise made for a currency settles to. *)
Definition settled_rate (e : env) (currency : string)
  : result (option string) :=
  if usd_quoted currency then Ok (Some "1")
  else redis_get e (rate_key (resolvedCurrency currency)).

(** The keys looked up for a list of currencies, in order. *)
Definition lookup_keys (cs : list string) : list string :=
  List.map (fun c => rate_key (resolvedCurrency c))
           (List.filter (fun c => negb (usd_quoted c)) cs).

Fixpoint stored_rates (crs : list (string * option string))
                      (m : gmap string string) : gmap string string :=
  match crs with
  | [] => m
  | (c, Some r) :: rest => stored_rates rest (<[c := r]> m)
  | (_, None) :: rest => stored_rates rest m
  end.

Fixpoint missing_rates (crs : list (string * option string))
  : list log_entry :=
  match crs with
  | [] => []
  | (_, Some _) :: rest => missing_rates rest
  | (c, None) :: rest => ErrorRateMissing c :: missing_rates rest
  end.

(** The three things a call of [getExchangeRatesToUSD] produces: the
    returned table, the log lines and the lookups. *)
Definition rates_outcome (e : env) (cs : list string)
  : gmap string string * list log_entry * list string :=
  if redis_required e then
    match Promise_all (List.map (settled_rate e) cs) with
    | Ok rs =>
        let m := stored_rates (combine cs rs) ∅ in
        (m, (missing_rates (combine cs rs) ++ [DebugExchangeRates m])%list,
         lookup_keys cs)
    | Throw err =>
        (default_exchangeRates,
         [ErrorRatesUnavailable err; DebugExchangeRates default_exchangeRates],
         lookup_keys cs)
    end
  else
    (default_exchangeRates,
     [ErrorRatesUnavailable (Rejected "require('../lib/redis')");
      DebugExchangeRates default_exchangeRates],
     []).

(** The three things a call of [getSortQuery] produces. *)
Definition sort_outcome (e : env) (sort order : option string)
  : sort_spec * list log_entry * list string :=
  let '(exchangeRates, l, ks) := rates_outcome e currencies in
  let s := or_empty sort in
  let o := or_empty order in
  if is_set sort && is_set order then
    if includes sortWhiteList s && includes orderWhiteList o then
      (if String.eqb s "price.amount" then ScriptSort o exchangeRates
       else FieldSort s o, l, ks)
    else (NoSort, (l ++ [ErrorException (NotWhitelisted s o)])%list, ks)
  else (NoSort, l, ks).

(** The log line of a rejected sort. *)
Definition is_rejection (l : log_entry) : bool :=
  match l with
  | ErrorException (NotWhitelisted _ _) => true
  | _ => false
  end.

(** What a returned listing view takes from the hit it projects. *)
Definition projects (hit : string * jsval) (l : ListingView.t) : Prop :=
  ListingView.id l = fst hit
  /\ ListingView.title l = js_prop "title" (snd hit)
  /\ ListingView.category l = js_prop "category" (snd hit)
  /\ ListingView.subCategory l = js_prop "subCategory" (snd hit)
  /\ ListingView.description l = js_prop "description" (snd hit)
  /\ ListingView.price l
     = ListingView.mkPrice
         (get (snd hit) ["price"; "amount"] (VStr "0"))
         (get (snd hit) ["price"; "currency"; "id"] (VStr "fiat-USD")).

(** The same environment with another outcome of the partial update. *)
Definition with_update (e : env)
    (u : string -> list string -> jsval -> result unit) : env :=
  mkEnv (getTime e) (redis_required e) (redis_get e)
        (Engine.mk (Engine.get (engine e)) u (Engine.ranked (engine e))
                   (Engine.aggregate (engine e)))
        (scoreListing e).

(** The outcome of the [try] block of the price sort script. *)
Definition price_in_usd (parseFloat : string -> option Q)
    (exchangeRates : gmap string string) (_source : jsval) : option Q :=
  a ← as_string (get_path ["price"; "amount"] _source);
  amount ← parseFloat a;
  c ← as_string (get_path ["price"; "currency"; "id"] _source);
  r ← exchangeRates !! c;
  rate ← parseFloat r;
  Some (amount * rate)%Q.

(** A document with sort value [v] is not placed after one with sort
    value [v_last] when the list is sorted in direction [order]. *)
Definition not_after (order : string) (v v_last : Q) : Prop :=
  if String.eqb order "asc" then (v <= v_last)%Q else (v_last <= v)%Q.

Definition malformed_price_listing : jsval :=
  VObj [("title", VStr "Broken");
        ("price", VObj [("amount", VStr "ten");
                        ("currency", VObj [("id", VStr "fiat-USD")])])].

Definition expensive_listing : jsval :=
  VObj [("title", VStr "Tower");
        ("price", VObj [("amount", VStr "2000000000");
                        ("currency", VObj [("id", VStr "fiat-USD")])])].

Definition usd_only_rates : gmap string string := {["fiat-USD" := "1"]}.

(* ------------------------------------------------------------------ *)
(** ** Tactics *)

(** Run the monad one layer: unfold the combinators and reduce. *)
Ltac run_M :=
  unfold bind, try_catch, ret, throw, await, logger, getAsync, send;
  cbn beta iota.

(** Close an equation between runs that differ in how the appended
    trace segments are grouped. *)
Ltac trace_eq :=
  unfold extend; cbn [log lookups requests fst snd];
  rewrite ?app_nil_r, <- ?app_assoc; cbn [app];
  reflexivity.

(* ------------------------------------------------------------------ *)
(** ** Sample data *)

Definition sample_listing : jsval :=
  VObj [("title", VStr "Bike");
        ("description", VStr "A red bike");
        ("category", VStr "schema.forSale");
        ("subCategory", VStr "schema.bicycles");
        ("price", VObj [("amount", VStr "10");
                        ("currency", VObj [("id", VStr "fiat-USD")])]);
        ("status", VStr "active");
        ("valid", VBool true);
        ("scoreTags", VArr [])].

Definition withdrawn_listing : jsval :=
  VObj [("title", VStr "Car"); ("status", VStr "withdrawn");
        ("valid", VBool true); ("scoreTags", VArr [])].

(** An exact-value reading of the three leaf clauses of the visibility
    rules on a stored document; any other clause is taken to match. *)
Definition sample_leaf (c : jsval) (d : jsval) : bool :=
  if jsval_eqb c withdrawn_clause then
    jsval_eqb (js_prop "status" d) (VStr "withdrawn")
  else if jsval_eqb c invalid_clause then
    jsval_eqb (js_prop "valid" d) (VBool false)
  else if jsval_eqb c hidden_clause then
    match js_prop "scoreTags" d with
    | VArr tags =>
        existsb (fun t => jsval_eqb t (VStr "Hide")
                          || jsval_eqb t (VStr "Delete")) tags
    | _ => false
    end
  else true.

Definition category_filter : ListingFilter.t :=
  ListingFilter.mk "category" "EQUALS" (VStr "schema.forSale") "STRING".

(** [GREATER] is an operator of the filter vocabulary that the loop does
    not handle. *)
Definition greater_filter : ListingFilter.t :=
  ListingFilter.mk "price.amount" "GREATER" (VStr "5") "FLOAT".

(** An engine holding [n] copies of the sample listing, whose partial
    update is rejected. *)
Definition sample_engine (n : nat) : Engine.t :=
  Engine.mk
    (fun id => Ok (VObj [("_id", VStr id); ("_source", sample_listing)]))
    (fun _ _ _ => Throw (Rejected "update"))
    (fun _ _ => Ok (repeat ("1-000-1", sample_listing) n))
    (fun _ => Ok (mkAggregationResponse (VNum 10) (VNum 10))).

Definition sample_redis (key : string) : result (option string) :=
  if String.eqb key "ETH-USD_price" then Ok (Some "200")
  else if String.eqb key "DAI-USD_price" then Ok (Some "1.01")
  else Ok None.

Definition sample_env (n : nat) : env :=
  mkEnv 1600000000000 true sample_redis (sample_engine n)
        (fun _ => Ok (VObj [("scoreMultiplier", VNum 1)])).

(** The same, with the rate source unreachable: every lookup is
    rejected. *)
Definition offline_env : env :=
  mkEnv 1600000000000 true (fun _ => Throw (Rejected "getAsync"))
        (sample_engine 1)
        (fun _ => Ok (VObj [("scoreMultiplier", VNum 1)])).

(* ------------------------------------------------------------------ *)
(** ** Indexing a listing *)

(** [delete o.k]: on an object the property goes; on a primitive or an
    array (which has no named properties here) nothing happens. *)
Definition delete_prop (k : string) (o : jsval) : jsval :=
  match o with
  | VObj props =>
      VObj (List.filter (fun kv => negb (String.eqb (fst kv) k)) props)
  | v => v
  end.

(** The callback of [listingToIndex.offers.forEach]. *)
Definition strip_offer (offer : jsval) : result jsval :=
  match offer with
  | VUndefined | VNull =>
      Throw (TypeError "Cannot convert undefined or null to object")
  | _ => Ok (delete_prop "timeSlots" (delete_prop "ipfs" offer))
  end.

Fixpoint rmapM {A B} (f : A -> result B) (l : list A) : result (list B) :=
  match l with
  | [] => Ok []
  | x :: rest =>
      rbind (f x) (fun y => rbind (rmapM f rest) (fun ys => Ok (y :: ys)))
  end.

(** [if (listingToIndex.offers) { listingToIndex.offers.forEach(...) }]:
    the offers are edited in place. *)
Definition strip_offers (doc : jsval) : result jsval :=
  let offers := js_prop "offers" doc in
  if js_truthy offers then
    match offers with
    | VArr items =>
        rbind (rmapM strip_offer items)
              (fun items' => set_prop "offers" (VArr items') doc)
    | _ => Throw (TypeError "listingToIndex.offers.forEach is not a function")
    end
  else Ok doc.

(** The copy of the listing with the calendar and payload fields
    removed, as it stands before scoring.  The listing is a JSON object,
    given by its properties. *)
Definition listingToIndex (listing : list (string * jsval)) : result jsval :=
  strip_offers
    (delete_prop "availability"
       (delete_prop "ipfs" (json_clone (VObj listing)))).

Definition commission_warning (listingId : string) : string :=
  "WARNING: missing field commissionPerUnit on listing " ++ listingId.

(** What a call of [Listing.index] leaves behind: the console lines, the
    documents handed to [client.index], and its outcome. *)
Record index_run : Type := mkIndexRun {
  console : list string;
  indexed : list (string * jsval);
  returned : result string
}.

(** [Listing.index].  [client_index id body] is the settled outcome of
    [client.index({index, id, type, body})]. *)
Definition index (e : env) (client_index : string -> jsval -> result unit)
    (listingId buyerAddress ipfsHash : string)
    (listing : list (string * jsval)) : index_run :=
  let warnings :=
    if js_truthy (js_prop "commissionPerUnit" (json_clone (VObj listing)))
    then [] else [commission_warning listingId] in
  match listingToIndex listing with
  | Throw err => mkIndexRun warnings [] (Throw err)
  | Ok doc =>
      match rbind (scoreListing e doc) (read_prop "scoreMultiplier") with
      | Throw err => mkIndexRun warnings [] (Throw err)
      | Ok scoreMultiplier =>
          match set_prop "scoreMultiplier" scoreMultiplier doc with
          | Throw err => mkIndexRun warnings [] (Throw err)
          | Ok body =>
              mkIndexRun warnings [(listingId, body)]
                (rbind (client_index listingId body)
                       (fun _ => Ok listingId))
          end
      end
  end.

(* ------------------------------------------------------------------ *)
(** ** Auxiliary notions for the properties *)

(** Induction on values that goes through arrays and objects. *)
Section jsval_induction.
Variable P : jsval -> Prop.
Hypothesis Hundef : P VUndefined.
Hypothesis Hnull : P VNull.
Hypothesis Hbool : forall b, P (VBool b).
Hypothesis Hnum : forall n, P (VNum n).
Hypothesis Hstr : forall s, P (VStr s).
Hypothesis Harr : forall items, Forall P items -> P (VArr items).
Hypothesis Hobj :
  forall props, Forall (fun kv => P (snd kv)) props -> P (VObj props).

Fixpoint jsval_deep_ind (v : jsval) : P v :=
  match v with
  | VUndefined => Hundef
  | VNull => Hnull
  | VBool b => Hbool b
  | VNum n => Hnum n
  | VStr s => Hstr s
  | VArr items =>
      Harr items
        ((fix go (l : list jsval) : Forall P l :=
            match l with
            | [] => List.Forall_nil P
            | x :: rest =>
                @List.Forall_cons _ P x rest (jsval_deep_ind x) (go rest)
            end) items)
  | VObj props =>
      Hobj props
        ((fix go (l : list (string * jsval))
            : Forall (fun kv => P (snd kv)) l :=
            match l with
            | [] => List.Forall_nil _
            | kv :: rest =>
                @List.Forall_cons _ (fun kv => P (snd kv)) kv rest
                  (jsval_deep_ind (snd kv)) (go rest)
            end) props)
  end.
End jsval_induction.

(** No [undefined] anywhere inside a value: what JSON can carry. *)
Fixpoint json_value (v : jsval) : bool :=
  match v with
  | VUndefined => false
  | VArr items => forallb json_value items
  | VObj props => forallb (fun kv => json_value (snd kv)) props
  | _ => true
  end.

Fixpoint count_char (c : ascii) (s : string) : nat :=
  match s with
  | EmptyString => 0
  | String c' rest =>
      (if Ascii.eqb c' c then 1 else 0) + count_char c rest
  end.

(** The filter takes the branch that calls [filter.value.split]. *)
Definition splits_value (f : ListingFilter.t) : bool :=
  negb (String.eqb (ListingFilter.operator f) "GREATER_OR_EQUAL")
  && negb (String.eqb (ListingFilter.operator f) "LESSER_OR_EQUAL")
  && String.eqb (ListingFilter.operator f) "CONTAINS"
  && String.eqb (ListingFilter.valueType f) "ARRAY_STRING".

Definition unsplittable (f : ListingFilter.t) : bool :=
  splits_value f
  && match ListingFilter.value f with VStr _ => false | _ => true end.

(** The size that goes into the request. *)
Definition requested_size (numberOfItems : Z) : Z :=
  if numberOfItems =? -1 then 1000 else numberOfItems.

(** The slice of a ranked list that a request for [size] items from
    position [from] returns. *)
Definition page (from size : Z) (ranked : list (string * jsval))
  : list (string * jsval) :=
  firstn (Z.to_nat size) (skipn (Z.to_nat from) ranked).

(** The view of a stored document, as far as the stored document
    determines it. *)
Definition view_of (doc : string * jsval) (l : ListingView.t) : Prop :=
  ListingView.id l = fst doc
  /\ ListingView.title l = js_prop "title" (snd doc)
  /\ ListingView.description l = js_prop "description" (snd doc)
  /\ ListingView.price l
     = ListingView.mkPrice
         (get (snd doc) ["price"; "amount"] (VStr "0"))
         (get (snd doc) ["price"; "currency"; "id"] (VStr "fiat-USD")).

Definition unpriced_listing : jsval :=
  VObj [("title", VStr "Free"); ("description", VStr "No price")].

(** An engine that holds the given documents. *)
Definition engine_of (docs : list (string * jsval)) : Engine.t :=
  Engine.mk
    (fun id => Throw (Rejected "get"))
    (fun _ _ _ => Throw (Rejected "update"))
    (fun _ _ => Ok docs)
    (fun _ => Ok (mkAggregationResponse VNull VNull)).

Definition env_of (docs : list (string * jsval)) : env :=
  mkEnv 1600000000000 true sample_redis (engine_of docs)
        (fun _ => Ok (VObj [("scoreMultiplier", VNum 1)])).

(** An engine whose ranked search is rejected. *)
Definition failing_env : env :=
  mkEnv 1600000000000 true sample_redis
        (Engine.mk
           (fun id => Throw (Rejected "get"))
           (fun _ _ _ => Throw (Rejected "update"))
           (fun _ _ => Throw (Rejected "search"))
           (fun _ => Ok (mkAggregationResponse VNull VNull)))
        (fun _ => Throw (Rejected "scoreListing")).

(** The rate source has no rate for the currency. *)
Definition rate_missing (e : env) (currency : string) : bool :=
  match settled_rate e currency with
  | Ok None => true
  | _ => false
  end.

Definition euro_listing : jsval :=
  VObj [("title", VStr "Poster");
        ("price", VObj [("amount", VStr "12");
                        ("currency", VObj [("id", VStr "fiat-EUR")])])].

(** The documents the visibility rules are about, read off a stored
    document. *)
Definition withdrawn_doc (d : jsval) : Prop :=
  js_prop "status" d = VStr "withdrawn".

Definition invalid_doc (d : jsval) : Prop :=
  js_prop "valid" d = VBool false.

Definition hidden_doc (d : jsval) : Prop :=
  exists tags,
    js_prop "scoreTags" d = VArr tags
    /\ (In (VStr "Hide") tags \/ In (VStr "Delete") tags).

(** The engine answers a ranked request with documents that its boolean
    query selects, under the semantics [leaf] of the leaf clauses. *)
Definition engine_respects (leaf : jsval -> jsval -> bool) (eng : Engine.t)
  : Prop :=
  forall q s ranked,
    Engine.ranked eng q s = Ok ranked ->
    Forall (fun h => BoolQuery.selects leaf (fs_query q) (snd h) = true)
           ranked.

(** The least that the semantics of the leaf clauses must do for the
    visibility rules: a [match] on status "withdrawn" holds of a
    withdrawn document, a [term] on valid false of an invalid one, and a
    [terms] on scoreTags Hide or Delete of a document carrying one of
    these tags. *)
Definition understands_visibility (leaf : jsval -> jsval -> bool) : Prop :=
  (forall d, withdrawn_doc d ->
     leaf (VObj [("match", VObj [("status", VStr "withdrawn")])]) d = true)
  /\ (forall d, invalid_doc d ->
        leaf (VObj [("term", VObj [("valid", VBool false)])]) d = true)
  /\ (forall d, hidden_doc d ->
        leaf (VObj [("terms",
                     VObj [("scoreTags",
                            VArr [VStr "Hide"; VStr "Delete"])])]) d
        = true).

(** An engine that holds the given documents and answers a ranked request
    with those its boolean query selects under [sample_leaf]. *)
Definition moderated_engine (docs : list (string * jsval)) : Engine.t :=
  Engine.mk
    (fun id => Throw (Rejected "get"))
    (fun _ _ _ => Throw (Rejected "update"))
    (fun q _ =>
       Ok (List.filter
             (fun h => BoolQuery.selects sample_leaf (fs_query q) (snd h))
             docs))
    (fun _ => Ok (mkAggregationResponse VNull VNull)).

Definition moderated_env (docs : list (string * jsval)) : env :=
  mkEnv 1600000000000 true sample_redis (moderated_engine docs)
        (fun _ => Ok (VObj [("scoreMultiplier", VNum 1)])).

(** An engine that rejects both requests of a search. *)
Definition deaf_env : env :=
  mkEnv 1600000000000 true sample_redis
        (Engine.mk
           (fun id => Throw (Rejected "get"))
           (fun _ _ _ => Throw (Rejected "update"))
           (fun _ _ => Throw (Rejected "search"))
           (fun _ => Throw (Rejected "aggregate")))
        (fun _ => Throw (Rejected "scoreListing")).

(** [sort] and [order] are both on their whitelist. *)
Definition listed (sort order : option string) : bool :=
  match sort, order with
  | Some s, Some o =>
      String.eqb s "price.amount" && (String.eqb o "asc" || String.eqb o "desc")
  | _, _ => false
  end.

Definition contains_filter : ListingFilter.t :=
  ListingFilter.mk "category" "CONTAINS" (VStr "a,b,c") "ARRAY_STRING".

Definition bad_contains_filter : ListingFilter.t :=
  ListingFilter.mk "category" "CONTAINS" (VNum 3) "ARRAY_STRING".

Definition raw_listing : list (string * jsval) :=
  [("title", VStr "Room");
   ("ipfs", VObj [("hash", VStr "Qm")]);
   ("availability", VArr [VStr "jCal"]);
   ("commissionPerUnit", VStr "5");
   ("offers", VArr [VObj [("id", VStr "0"); ("ipfs", VObj []);
                          ("timeSlots", VArr [])]])].

(* ------------------------------------------------------------------ *)
(** * Properties *)

Lemma json_clone_to_js (q : BoolQuery.t) :
  json_clone (BoolQuery.to_js q) = BoolQuery.to_js (BoolQuery.clone q).
Proof. destruct q; reflexivity. Qed.

Lemma esAggregationQuery_eq (query : option string) :
  esAggregationQuery query = esQuery_text query.
Proof.
  unfold esAggregationQuery, esQuery_text.
  destruct query as [s|]; [destruct (String.eqb s "")|]; reflexivity.
Qed.

(* ------------------------------------------------------------------ *)
(** ** The boolean queries *)

Lemma filters_forEach_frame (filters : list ListingFilter.t) :
  forall q q', filters_forEach filters q = Ok q' ->
    BoolQuery.must q' = BoolQuery.must q
    /\ BoolQuery.must_not q' = BoolQuery.must_not q
    /\ BoolQuery.should q' = BoolQuery.should q
    /\ length (BoolQuery.filter q')
       = (length (BoolQuery.filter q) + length filters)%nat.
Proof.
  induction filters as [|f rest IH]; intros q q' H; simpl in H.
  - inversion H; subst. repeat split; try reflexivity. simpl. lia.
  - destruct (innerFilter f) as [c|err]; simpl in H; [|discriminate].
    destruct (IH _ _ H) as (Hm & Hn & Hs & Hf). simpl in *.
    rewrite length_app in Hf. simpl in Hf. repeat split; try assumption. lia.
Qed.

Lemma esQuery_text_must_not (query : option string) :
  BoolQuery.must_not (esQuery_text query)
  = [withdrawn_clause; invalid_clause; hidden_clause].
Proof.
  unfold esQuery_text.
  destruct query as [s|]; [destruct (String.eqb s "")|]; reflexivity.
Qed.

Lemma esQuery_text_filter (query : option string) :
  BoolQuery.filter (esQuery_text query) = [].
Proof.
  unfold esQuery_text.
  destruct query as [s|]; [destruct (String.eqb s "")|]; reflexivity.
Qed.

Lemma esQuery_must_not query filters q :
  esQuery query filters = Ok q ->
  BoolQuery.must_not q = [withdrawn_clause; invalid_clause; hidden_clause].
Proof.
  intros H. unfold esQuery in H.
  destruct (filters_forEach_frame _ _ _ H) as (_ & Hn & _).
  rewrite esQuery_text_must_not in Hn. exact Hn.
Qed.

(** A matching [must_not] clause excludes, whatever else matches. *)
Lemma selects_must_not {D : Type} (leaf : jsval -> D -> bool)
                       (q : BoolQuery.t) (d : D) :
  existsb (fun c => leaf c d) (BoolQuery.must_not q) = true ->
  BoolQuery.selects leaf q d = false.
Proof. intros H. unfold BoolQuery.selects. rewrite H. apply andb_false_r. Qed.

(** The loop is total on the filters whose value is a string. *)
Lemma filters_forEach_total (filters : list ListingFilter.t) :
  Forall (fun f => exists s, ListingFilter.value f = VStr s) filters ->
  forall q, exists q', filters_forEach filters q = Ok q'.
Proof.
  induction 1 as [|f rest [s Hs] _ IH]; intros q; simpl.
  - eauto.
  - unfold innerFilter. rewrite Hs.
    repeat match goal with
           | |- context [if ?b then _ else _] => destruct b
           end; simpl; apply IH.
Qed.

(** A filter outside the four handled shapes yields the empty object. *)
Lemma innerFilter_unhandled (f : ListingFilter.t) :
  ListingFilter.operator f <> "GREATER_OR_EQUAL" ->
  ListingFilter.operator f <> "LESSER_OR_EQUAL" ->
  ListingFilter.operator f <> "EQUALS" ->
  ~ (ListingFilter.operator f = "CONTAINS"
     /\ ListingFilter.valueType f = "ARRAY_STRING") ->
  innerFilter f = Ok (VObj []).
Proof.
  intros H1 H2 H3 H4. unfold innerFilter.
  apply String.eqb_neq in H1, H2, H3. rewrite H1, H2, H3.
  destruct (String.eqb (ListingFilter.operator f) "CONTAINS") eqn:Ec;
    destruct (String.eqb (ListingFilter.valueType f) "ARRAY_STRING") eqn:Ev;
    simpl; try reflexivity.
  exfalso. apply H4. split; apply String.eqb_eq; assumption.
Qed.

(* ------------------------------------------------------------------ *)
(** ** The ranking script *)

Lemma wrap64_small (z : Z) : - 2 ^ 63 <= z < 2 ^ 63 -> wrap64 z = z.
Proof. intros H. unfold wrap64. rewrite Z.mod_small; lia. Qed.

Lemma score_script_boost (now ts : Z) (m _score : Q) :
  (score_script now (Some m) (Some ts) _score
   == _score * m * boost_factor now ts)%Q.
Proof.
  unfold score_script, boost_factor.
  destruct ((0 <? wrap64 (now - ts)) && (wrap64 (now - ts) <? boostPeriod)).
  - reflexivity.
  - ring.
Qed.

(** With both readings in one unit the script is the linear boost: for an
    age strictly between zero and eighteen days of that unit, the factor
    is [1 + age / boostPeriod * 0.5]; otherwise it is [1]. *)
Lemma boost_factor_same_unit (now ts : Z) :
  - 2 ^ 63 <= now - ts < 2 ^ 63 ->
  boost_factor now ts
  = if (0 <? now - ts) && (now - ts <? 1555200)
    then (1 + (inject_Z (now - ts) / inject_Z 1555200) * (1 # 2))%Q
    else 1%Q.
Proof. intros H. unfold boost_factor. rewrite wrap64_small by exact H. reflexivity. Qed.

(** [search] passes [new Date().getTime()], milliseconds, as [now]: with
    creation timestamps in seconds no document created in the past gets a
    boost, from 1970-01-01T00:25:57Z on. *)
Lemma boost_factor_millisecond_clock (now ts : Z) :
  0 <= ts -> 1000 * ts <= now -> 1556757 <= now < 2 ^ 63 ->
  boost_factor now ts = 1%Q.
Proof.
  intros Hts Hle [Hlo Hhi]. unfold boost_factor.
  rewrite wrap64_small by lia.
  replace (now - ts <? boostPeriod) with false.
  - rewrite andb_false_r. reflexivity.
  - symmetry. apply Z.ltb_ge. unfold boostPeriod. lia.
Qed.

(** C2 at the failing input.  The request that [search] sends carries
    [now = 1600000000000] (milliseconds).  A listing created nine days
    earlier, with relevance 10 and multiplier 2, scores 20 whether its
    timestamp is stored in seconds or in milliseconds: the boost is not
    applied.  The script gives the 25 of the claim only when [now] is in
    seconds, which [search] never passes. *)
Theorem recency_boost_lost_to_millisecond_clock :
  List.map (fun b => fs_now (SearchBody.query b))
    (sent_search_bodies
       (snd (search (sample_env 1) None None None None 10 0 no_trace)))
  = [1600000000000]
  /\ List.map
       (fun b => ranking_score (SearchBody.query b) (Some 2%Q)
                   (Some (1600000000 - 9 * 24 * 60 * 60)) 10%Q)
       (sent_search_bodies
          (snd (search (sample_env 1) None None None None 10 0 no_trace)))
     = [20%Q]
  /\ List.map
       (fun b => ranking_score (SearchBody.query b) (Some 2%Q)
                   (Some (1600000000000 - 9 * 24 * 60 * 60 * 1000)) 10%Q)
       (sent_search_bodies
          (snd (search (sample_env 1) None None None None 10 0 no_trace)))
     = [20%Q]
  /\ Qeq (score_script 1600000000 (Some 2%Q)
            (Some (1600000000 - 9 * 24 * 60 * 60)) 10%Q) 25%Q
  /\ Qeq (boost_factor 1600000000 1600000000) 1%Q
  /\ Qeq (boost_factor 1600000000 (1600000000 - 9 * 24 * 60 * 60)) (5 # 4)%Q
  /\ Qeq (boost_factor 1600000000 (1600000000 - 19 * 24 * 60 * 60)) 1%Q.
Proof. repeat split; vm_compute; reflexivity. Qed.

(* ------------------------------------------------------------------ *)
(** ** The price sort script *)

Lemma price_sort_script_eq parseFloat order rates src :
  price_sort_script parseFloat order rates src
  = match price_in_usd parseFloat rates src with
    | Some v => v
    | None => if String.eqb order "asc" then 1000000000%Q else 0%Q
    end.
Proof. reflexivity. Qed.

(** C7, as stated, fails: sorting ascending, a well-formed listing priced
    at 2000000000 USD has a sort value above the sentinel, so the
    malformed listing is placed before it. *)
Lemma sentinel_not_last_ascending :
  price_in_usd parse_decimal usd_only_rates malformed_price_listing = None
  /\ ~ not_after "asc"
         (price_sort_script parse_decimal "asc" usd_only_rates
            expensive_listing)
         (price_sort_script parse_decimal "asc" usd_only_rates
            malformed_price_listing).
Proof.
  split; [vm_compute; reflexivity|].
  vm_compute. intros H. apply H. reflexivity.
Qed.

(** C7, amended: when the amount or the rate of a listing cannot be
    obtained or parsed, the script returns 1000000000 for order [asc] and
    0 for order [desc], whatever the parser; the computation is a total
    function, so it never raises; and the listing is placed after every
    listing whose converted price lies between 0 and 1000000000. *)
Theorem malformed_price_gets_sentinel :
  forall parseFloat order rates src,
    In order orderWhiteList ->
    price_in_usd parseFloat rates src = None ->
    price_sort_script parseFloat order rates src
    = (if String.eqb order "asc" then 1000000000%Q else 0%Q)
    /\ (order = "asc" ->
        price_sort_script parseFloat order rates src = 1000000000%Q)
    /\ (order = "desc" ->
        price_sort_script parseFloat order rates src = 0%Q)
    /\ forall other,
         (0 <= price_sort_script parseFloat order rates other)%Q ->
         (price_sort_script parseFloat order rates other <= 1000000000)%Q ->
         not_after order
           (price_sort_script parseFloat order rates other)
           (price_sort_script parseFloat order rates src).
Proof.
  intros parseFloat order rates src Hord Hnone.
  rewrite price_sort_script_eq, Hnone.
  split; [reflexivity|].
  split; [intros ->; reflexivity|].
  split; [intros ->; reflexivity|].
  intros other H0 H1. unfold not_after.
  destruct (String.eqb order "asc"); assumption.
Qed.

Lemma malformed_price_gets_sentinel_witness :
  In "desc" orderWhiteList
  /\ price_in_usd parse_decimal usd_only_rates malformed_price_listing = None
  /\ price_sort_script parse_decimal "desc" usd_only_rates
       malformed_price_listing = 0%Q
  /\ price_sort_script parse_decimal "desc" usd_only_rates sample_listing
     = (10 # 1)%Q.
Proof.
  split; [right; left; reflexivity|].
  split; [vm_compute; reflexivity|].
  split; [|vm_compute; reflexivity].
  apply (malformed_price_gets_sentinel parse_decimal "desc" usd_only_rates
           malformed_price_listing).
  - right; left; reflexivity.
  - vm_compute; reflexivity.
  - reflexivity.
Defined.

(* ------------------------------------------------------------------ *)
(** ** Exchange rates *)

(** The monad laws, pointwise. *)
Lemma bind_ret_l {A B} (a : A) (k : A -> M B) (t : trace) :
  bind (ret a) k t = k a t.
Proof. reflexivity. Qed.

Lemma bind_ret_r {A} (m : M A) (t : trace) : bind m ret t = m t.
Proof. unfold bind, ret. destruct (m t) as [[a|err] t']; reflexivity. Qed.

Lemma bind_assoc {A B C} (m : M A) (f : A -> M B) (g : B -> M C) (t : trace) :
  bind (bind m f) g t = bind m (fun a => bind (f a) g) t.
Proof. unfold bind. destruct (m t) as [[a|err] t']; reflexivity. Qed.

(** A handler is not entered by a run that returns. *)
Lemma try_catch_ok {A} (m : M A) (h : error -> M A) (t t' : trace) (a : A) :
  m t = (Ok a, t') -> try_catch m h t = (Ok a, t').
Proof. intros H. unfold try_catch. rewrite H. reflexivity. Qed.

Lemma extend_nil (t : trace) : extend [] [] [] t = t.
Proof. destruct t. unfold extend. simpl. rewrite !app_nil_r. reflexivity. Qed.

Lemma extend_extend l1 k1 r1 l2 k2 r2 (t : trace) :
  extend l2 k2 r2 (extend l1 k1 r1 t)
  = extend (l1 ++ l2) (k1 ++ k2) (r1 ++ r2) t.
Proof. unfold extend. simpl. rewrite !app_assoc. reflexivity. Qed.

Lemma mapM_rate_promise (e : env) (cs : list string) :
  forall t, mapM (rate_promise e) cs t
            = (Ok (List.map (settled_rate e) cs),
               extend [] (lookup_keys cs) [] t).
Proof.
  induction cs as [|c cs IH]; intros t.
  - cbn. rewrite extend_nil. reflexivity.
  - cbn [mapM List.map]. unfold bind at 1.
    unfold rate_promise, settled_rate, lookup_keys, usd_quoted.
    cbn [List.filter].
    destruct (bool_decide (resolvedCurrency c = Some "USD")); cbn [negb].
    + unfold ret at 1. unfold bind. rewrite IH. reflexivity.
    + unfold getAsync. unfold bind. rewrite IH. cbn [List.map].
      unfold ret.
      change (mkTrace (log t) (lookups t ++ [rate_key (resolvedCurrency c)])
                (requests t))
        with (mkTrace (log t) (lookups t ++ [rate_key (resolvedCurrency c)])
                (requests t)).
      unfold lookup_keys, usd_quoted, extend. cbn.
      rewrite !app_nil_r, <- app_assoc. reflexivity.
Qed.

Lemma store_rates_eq (crs : list (string * option string)) :
  forall m t, store_rates crs m t
              = (Ok (stored_rates crs m), extend (missing_rates crs) [] [] t).
Proof.
  induction crs as [|[c [r|]] crs IH]; intros m t.
  - cbn. rewrite extend_nil. reflexivity.
  - cbn [store_rates stored_rates missing_rates]. unfold bind, store_rate.
    cbn. rewrite IH. reflexivity.
  - cbn [store_rates stored_rates missing_rates]. unfold bind, store_rate.
    cbn. rewrite IH. unfold extend. cbn.
    rewrite !app_nil_r, <- app_assoc. reflexivity.
Qed.

(** [getExchangeRatesToUSD] never raises: it returns a table and extends
    the trace by its log lines and lookups. *)
Lemma getExchangeRatesToUSD_eq (e : env) (cs : list string) (t : trace) :
  getExchangeRatesToUSD e cs t
  = (Ok (fst (fst (rates_outcome e cs))),
     extend (snd (fst (rates_outcome e cs))) (snd (rates_outcome e cs)) [] t).
Proof.
  unfold getExchangeRatesToUSD, rates_outcome.
  destruct (redis_required e); run_M.
  - rewrite mapM_rate_promise. run_M.
    destruct (Promise_all (List.map (settled_rate e) cs)) as [rs|err]; run_M.
    + rewrite store_rates_eq. run_M. trace_eq.
    + trace_eq.
  - trace_eq.
Qed.

Lemma string_length_app (a b : string) :
  String.length (a ++ b) = (String.length a + String.length b)%nat.
Proof. induction a as [|c a IH]; simpl; [reflexivity | now rewrite IH]. Qed.

Lemma rate_key_usd_inv (rc : option string) :
  rate_key rc = rate_key (Some "USD") -> rc = Some "USD".
Proof.
  destruct rc as [x|]; [|discriminate].
  intros H. pose proof (f_equal String.length H) as Hl.
  unfold rate_key in *. rewrite string_length_app in Hl. simpl in Hl.
  destruct x as [|a [|b [|c [|d x]]]]; simpl in Hl; try lia.
  cbv in H. congruence.
Qed.

(** No lookup is made under the key of a USD-quoted currency. *)
Lemma lookup_keys_no_usd (cs : list string) :
  ~ In (rate_key (Some "USD")) (lookup_keys cs).
Proof.
  unfold lookup_keys. intros H.
  apply in_map_iff in H as (c & Hk & Hc).
  apply filter_In in Hc as [_ Hc].
  apply rate_key_usd_inv in Hk. unfold usd_quoted in Hc.
  rewrite bool_decide_eq_true_2 in Hc by exact Hk. discriminate.
Qed.

Lemma Promise_all_ok {A} (ps : list (result A)) (rs : list A) :
  Promise_all ps = Ok rs -> ps = List.map Ok rs.
Proof.
  revert rs. induction ps as [|[a|err] ps IH]; intros rs H; simpl in H.
  - inversion H. reflexivity.
  - destruct (Promise_all ps) as [r|err]; simpl in H; [|discriminate].
    inversion H; subst. simpl. f_equal. apply IH. reflexivity.
  - discriminate.
Qed.

Lemma Promise_all_fulfilled {A} (ps : list (result A)) :
  Forall (fun p => exists a, p = Ok a) ps -> exists rs, Promise_all ps = Ok rs.
Proof.
  induction 1 as [|p ps [a ->] _ [rs IH]]; simpl.
  - eauto.
  - rewrite IH. simpl. eauto.
Qed.

Lemma Promise_all_rejected {A} (ps : list (result A)) :
  Exists (fun p => exists err, p = Throw err) ps ->
  exists err, Promise_all ps = Throw err.
Proof.
  induction 1 as [p ps [err ->]|p ps _ [err IH]]; simpl.
  - eauto.
  - destruct p as [a|err']; simpl; [|eauto]. rewrite IH. simpl. eauto.
Qed.

Lemma combine_settled (e : env) (cs : list string) :
  forall rs, List.map (settled_rate e) cs = List.map Ok rs ->
    (forall c r, In (c, r) (combine cs rs) -> settled_rate e c = Ok r)
    /\ (forall c, In c cs -> exists r, In (c, r) (combine cs rs)).
Proof.
  induction cs as [|c0 cs IH]; intros [|r0 rs] H; simpl in H;
    try discriminate.
  - split; [intros c r []|intros c []].
  - injection H as H0 Hrest. destruct (IH _ Hrest) as [IH1 IH2].
    split.
    + intros c r [Heq|Hin]; [inversion Heq; subst; exact H0 | eauto].
    + intros c [->|Hin]; [exists r0; left; reflexivity|].
      destruct (IH2 _ Hin) as [r Hr]. exists r. right. exact Hr.
Qed.

Lemma stored_rates_one (c : string) (crs : list (string * option string)) :
  (forall r, In (c, r) crs -> r = Some "1") ->
  forall m : gmap string string,
    m !! c = Some "1" \/ In (c, Some "1") crs ->
    stored_rates crs m !! c = Some "1".
Proof.
  induction crs as [|[c' [r'|]] crs IH]; intros Hall m Hm; simpl.
  - destruct Hm as [Hm|[]]. exact Hm.
  - apply IH; [intros r Hr; apply Hall; right; exact Hr|].
    destruct (decide (c' = c)) as [->|Hne].
    + left. assert (Some r' = Some "1") as Hr by (apply Hall; left; reflexivity).
      inversion Hr. apply lookup_insert_eq.
    + rewrite lookup_insert_ne by exact Hne.
      destruct Hm as [Hm|[Heq|Hin]]; [left; exact Hm | congruence
                                     | right; exact Hin].
  - apply IH; [intros r Hr; apply Hall; right; exact Hr|].
    destruct Hm as [Hm|[Heq|Hin]]; [left; exact Hm | | right; exact Hin].
    inversion Heq.
Qed.

(** C9, as stated, fails: when the lookups are rejected the fallback
    table is returned, and it gives [fiat-USD] the string ["1.0"], not
    ["1"]. *)
Lemma fallback_usd_rate_is_not_the_string_one :
  In "fiat-USD" currencies
  /\ resolvedCurrency "fiat-USD" = Some "USD"
  /\ fst (getExchangeRatesToUSD offline_env currencies no_trace)
     = Ok default_exchangeRates
  /\ default_exchangeRates !! "fiat-USD" = Some "1.0"
  /\ default_exchangeRates !! "fiat-USD" <> Some "1".
Proof.
  split; [vm_compute; tauto|]. split; [reflexivity|].
  split; [rewrite getExchangeRatesToUSD_eq; vm_compute; reflexivity|].
  split; [vm_compute; reflexivity | vm_compute; discriminate].
Qed.

(** C9, amended: in every execution, no lookup is made for a requested
    currency whose quote side is USD (the lookups are exactly the keys of
    the other requested currencies, or none when the rate source cannot be
    loaded); when the rate source loads and no lookup is rejected, the
    returned table gives that currency the string ["1"]; otherwise the
    fallback table is returned as it is. *)
Theorem usd_quoted_rate_without_lookup :
  forall e cs c t,
    In c cs ->
    resolvedCurrency c = Some "USD" ->
    ~ In (rate_key (resolvedCurrency c)) (lookup_keys cs)
    /\ lookups (snd (getExchangeRatesToUSD e cs t))
       = (lookups t ++ if redis_required e then lookup_keys cs else [])%list
    /\ (redis_required e = true ->
        Forall (fun c' => exists r, settled_rate e c' = Ok r) cs ->
        exists m, fst (getExchangeRatesToUSD e cs t) = Ok m
                  /\ m !! c = Some "1")
    /\ (redis_required e = false
        \/ Exists (fun c' => exists err, settled_rate e c' = Throw err) cs ->
        fst (getExchangeRatesToUSD e cs t) = Ok default_exchangeRates).
Proof.
  intros e cs c t Hin Husd. rewrite getExchangeRatesToUSD_eq.
  cbn [fst snd]. unfold rates_outcome.
  split; [rewrite Husd; apply lookup_keys_no_usd|].
  split.
  { destruct (redis_required e);
      [destruct (Promise_all _)|]; reflexivity. }
  split.
  - intros Hreq Hall. rewrite Hreq.
    destruct (Promise_all_fulfilled (List.map (settled_rate e) cs)) as [rs Hrs].
    { apply Forall_map. exact Hall. }
    rewrite Hrs. cbn [fst]. eexists. split; [reflexivity|].
    apply Promise_all_ok in Hrs.
    destruct (combine_settled e cs rs Hrs) as [H1 H2].
    assert (settled_rate e c = Ok (Some "1")) as Hc.
    { unfold settled_rate, usd_quoted.
      rewrite bool_decide_eq_true_2 by exact Husd. reflexivity. }
    apply stored_rates_one.
    + intros r Hr. apply H1 in Hr. congruence.
    + right. destruct (H2 c Hin) as [r Hr].
      pose proof (H1 _ _ Hr) as Hr'. rewrite Hc in Hr'. inversion Hr'; subst.
      exact Hr.
  - intros [Hreq|Hex].
    + rewrite Hreq. reflexivity.
    + destruct (redis_required e); [|reflexivity].
      destruct (Promise_all_rejected (List.map (settled_rate e) cs)) as [err Herr].
      { apply Exists_map. exact Hex. }
      rewrite Herr. reflexivity.
Qed.

Lemma usd_quoted_rate_without_lookup_witness :
  In "fiat-USD" currencies
  /\ resolvedCurrency "fiat-USD" = Some "USD"
  /\ lookups (snd (getExchangeRatesToUSD (sample_env 1) currencies no_trace))
     = ["CNY-USD_price"; "EUR-USD_price"; "GBP-USD_price"; "JPY-USD_price";
        "KRW-USD_price"; "SGD-USD_price"; "DAI-USD_price"; "ETH-USD_price"]
  /\ exists m,
       fst (getExchangeRatesToUSD (sample_env 1) currencies no_trace) = Ok m
       /\ m !! "fiat-USD" = Some "1".
Proof.
  assert (In "fiat-USD" currencies) as Hin by (vm_compute; tauto).
  destruct (usd_quoted_rate_without_lookup (sample_env 1) currencies
              "fiat-USD" no_trace Hin eq_refl) as (_ & Hl & Hm & _).
  split; [exact Hin|]. split; [reflexivity|].
  split; [rewrite Hl; vm_compute; reflexivity|].
  apply Hm; [reflexivity|].
  repeat constructor; eexists; vm_compute; reflexivity.
Defined.

(* ------------------------------------------------------------------ *)
(** ** Sort resolution *)

(** [getSortQuery] never raises. *)
Lemma getSortQuery_eq (e : env) (sort order : option string) (t : trace) :
  getSortQuery e sort order t
  = (Ok (fst (fst (sort_outcome e sort order))),
     extend (snd (fst (sort_outcome e sort order)))
            (snd (sort_outcome e sort order)) [] t).
Proof.
  unfold getSortQuery, sort_outcome. run_M.
  rewrite getExchangeRatesToUSD_eq.
  destruct (rates_outcome e currencies) as [[m l] ks]. cbn [fst snd].
  destruct (is_set sort && is_set order); [|reflexivity].
  destruct (includes sortWhiteList (or_empty sort)
            && includes orderWhiteList (or_empty order)).
  - destruct (String.eqb (or_empty sort) "price.amount"); reflexivity.
  - cbn [fst snd]. f_equal. trace_eq.
Qed.

Lemma missing_rates_no_rejection (crs : list (string * option string)) :
  List.filter is_rejection (missing_rates crs) = [].
Proof.
  induction crs as [|[c [r|]] crs IH]; simpl; auto.
Qed.

Lemma rates_outcome_no_rejection (e : env) (cs : list string) :
  List.filter is_rejection (snd (fst (rates_outcome e cs))) = [].
Proof.
  unfold rates_outcome.
  destruct (redis_required e); [destruct (Promise_all _)|]; cbn [fst snd];
    try reflexivity.
  rewrite List.filter_app, missing_rates_no_rejection. reflexivity.
Qed.

Lemma not_whitelisted (sort order : option string) :
  ~ (sort = Some "price.amount"
     /\ (order = Some "asc" \/ order = Some "desc")) ->
  is_set sort && is_set order = true ->
  includes sortWhiteList (or_empty sort)
  && includes orderWhiteList (or_empty order) = false.
Proof.
  intros Hnot Hset.
  destruct sort as [s|], order as [o|]; try discriminate;
    try (simpl in Hset; rewrite andb_false_r in Hset; discriminate).
  unfold includes, sortWhiteList, orderWhiteList. cbn [existsb or_empty].
  rewrite !orb_false_r.
  destruct (String.eqb_spec s "price.amount") as [->|]; [|reflexivity].
  destruct (String.eqb_spec o "asc") as [->|];
    [exfalso; apply Hnot; auto|].
  destruct (String.eqb_spec o "desc") as [->|];
    [exfalso; apply Hnot; auto|].
  reflexivity.
Qed.

(** C8, as stated, fails: with the sort missing nothing about a rejection
    is logged. *)
Lemma missing_sort_is_not_logged :
  fst (getSortQuery (sample_env 1) None (Some "asc") no_trace) = Ok NoSort
  /\ ~ (exists err,
          In (ErrorException err)
             (log (snd (getSortQuery (sample_env 1) None (Some "asc")
                          no_trace)))).
Proof.
  split; [rewrite getSortQuery_eq; reflexivity|].
  intros [err H]. revert H. rewrite getSortQuery_eq. vm_compute.
  intros H. repeat (destruct H as [H|H]; [discriminate H|]). destruct H.
Qed.

(** C8, amended: for every (sort, order) pair outside the whitelist, sort
    resolution returns "no explicit sort" and does not raise.  The
    rejection is logged when both values are set (non-empty); when either
    is missing or empty nothing about it is logged. *)
Theorem unlisted_sort_falls_back :
  forall e sort order t,
    ~ (sort = Some "price.amount"
       /\ (order = Some "asc" \/ order = Some "desc")) ->
    fst (getSortQuery e sort order t) = Ok NoSort
    /\ requests (snd (getSortQuery e sort order t)) = requests t
    /\ List.filter is_rejection (log (snd (getSortQuery e sort order t)))
       = (List.filter is_rejection (log t)
          ++ if is_set sort && is_set order
             then [ErrorException
                     (NotWhitelisted (or_empty sort) (or_empty order))]
             else [])%list.
Proof.
  intros e sort order t Hnot. rewrite getSortQuery_eq. cbn [fst snd].
  pose proof (not_whitelisted sort order Hnot) as Hw.
  pose proof (rates_outcome_no_rejection e currencies) as Hn.
  unfold sort_outcome.
  destruct (rates_outcome e currencies) as [[m l] ks]. cbn [fst snd] in Hn.
  destruct (is_set sort && is_set order).
  - rewrite Hw by reflexivity. cbn [fst snd]. unfold extend. cbn [log requests].
    rewrite app_nil_r, !List.filter_app, Hn. auto.
  - cbn [fst snd]. unfold extend. cbn [log requests].
    rewrite app_nil_r, !List.filter_app, Hn. auto.
Qed.

Lemma unlisted_sort_falls_back_witness :
  fst (getSortQuery (sample_env 1) (Some "bogus") (Some "asc") no_trace)
  = Ok NoSort
  /\ List.filter is_rejection
       (log (snd (getSortQuery (sample_env 1) (Some "bogus") (Some "asc")
                    no_trace)))
     = [ErrorException (NotWhitelisted "bogus" "asc")].
Proof.
  destruct (unlisted_sort_falls_back (sample_env 1) (Some "bogus")
              (Some "asc") no_trace) as (H1 & _ & H3).
  - intros [H _]. discriminate H.
  - split; [exact H1 | exact H3].
Defined.

(** On the whitelist the price script sort is returned, with the rates
    just read. *)
Lemma listed_sort_is_script (e : env) (order : string) (t : trace) :
  order = "asc" \/ order = "desc" ->
  fst (getSortQuery e (Some "price.amount") (Some order) t)
  = Ok (ScriptSort order (fst (fst (rates_outcome e currencies)))).
Proof.
  intros H. rewrite getSortQuery_eq. cbn [fst]. unfold sort_outcome.
  destruct (rates_outcome e currencies) as [[m l] ks].
  destruct H as [-> | ->]; reflexivity.
Qed.

(* ------------------------------------------------------------------ *)
(** ** Search *)

Lemma project_hit_run (hit : string * jsval) (t : trace) :
  snd (project_hit hit t) = t
  /\ forall l, fst (project_hit hit t) = Ok l -> projects hit l.
Proof.
  unfold project_hit. run_M.
  destruct (read_prop "title" (snd hit)) as [title|err] eqn:Ht;
    cbn [fst snd]; split; try reflexivity; intros l Hl; [|discriminate].
  inversion Hl; subst. unfold projects. cbn.
  repeat split. unfold read_prop in Ht.
  destruct (snd hit); inversion Ht; reflexivity.
Qed.

Lemma mapM_project_hit (hs : list (string * jsval)) :
  forall t,
    snd (mapM project_hit hs t) = t
    /\ forall ls, fst (mapM project_hit hs t) = Ok ls -> Forall2 projects hs ls.
Proof.
  induction hs as [|h hs IH]; intros t.
  - cbn. split; [reflexivity|]. intros ls H. inversion H. constructor.
  - cbn [mapM]. run_M.
    destruct (project_hit_run h t) as [Ht Hl].
    destruct (project_hit h t) as [[l|err] t1]; cbn [fst snd] in *; subst t1;
      [|split; [reflexivity | discriminate]].
    destruct (IH t) as [Ht' Hls].
    destruct (mapM project_hit hs t) as [[ls|err] t2]; cbn [fst snd] in *;
      subst t2; [|split; [reflexivity | discriminate]].
    split; [reflexivity|]. intros ls' H. inversion H; subst.
    constructor; auto.
Qed.

(** The page the engine returns is no longer than the requested size and
    holds source-filtered documents. *)
Lemma Engine_search_page (eng : Engine.t) (body : SearchBody.t)
                         (resp : search_response) :
  Engine.search eng body = Ok resp ->
  (length (hits resp) <= Z.to_nat (SearchBody.size body))%nat
  /\ Forall (fun h => exists doc,
                 snd h = Engine.source_filter (SearchBody._source body) doc)
            (hits resp).
Proof.
  unfold Engine.search. intros H.
  destruct (Engine.ranked eng _ _) as [ms|err]; cbn [rbind] in H;
    [|discriminate].
  destruct ((SearchBody.from body <? 0) || (SearchBody.size body <? 0));
    [discriminate|].
  inversion H; subst; clear H. cbn [hits]. split.
  - rewrite length_map. apply firstn_le_length.
  - apply List.Forall_forall. intros h Hh.
    apply in_map_iff in Hh as (x & <- & _).
    exists (snd x). reflexivity.
Qed.

Lemma source_filter_drops (fields : list string) (k : string) (doc : jsval) :
  existsb (String.eqb k) fields = false ->
  js_prop k (Engine.source_filter fields doc) = VUndefined.
Proof.
  intros Hk. destruct doc as [| | | | | |props]; try reflexivity.
  cbn. induction props as [|[k' v] props IH]; cbn; [reflexivity|].
  destruct (existsb (String.eqb k') fields) eqn:Hk'; [|exact IH].
  cbn. destruct (String.eqb_spec k k') as [->|]; [congruence | exact IH].
Qed.

(** A search that cannot build its query raises before anything is sent. *)
Lemma search_raises_early e query sort order filters numberOfItems offset t err :
  esQuery query filters = Throw err ->
  search e query sort order filters numberOfItems offset t = (Throw err, t).
Proof. intros H. unfold search. run_M. rewrite H. reflexivity. Qed.

(** Otherwise exactly two requests are sent, the ranked search and the
    aggregation. *)
Lemma search_sends e query sort order filters numberOfItems offset t q :
  esQuery query filters = Ok q ->
  requests (snd (search e query sort order filters numberOfItems offset t))
  = (requests t
     ++ [ReqSearch
           (SearchBody.mk offset
              (if numberOfItems =? -1 then 1000 else numberOfItems)
              (mkScoreQuery q (getTime e))
              (fst (fst (sort_outcome e sort order)))
              search_source);
         ReqAggregation
           (AggregationBody.mk (esAggregationQuery query) ["_id"])])%list.
Proof.
  intros H. unfold search. run_M. rewrite H, getSortQuery_eq.
  destruct (Engine.search _ _) as [resp|err]; [|cbn; trace_eq].
  destruct (Engine.aggregate _ _) as [agg|err]; [|cbn; trace_eq].
  match goal with
  | |- context [mapM project_hit ?hs ?t0] =>
      destruct (mapM_project_hit hs t0) as [Ht _];
      destruct (mapM project_hit hs t0) as [[ls|err] t1]
  end; cbn [fst snd] in *; subst; cbn; trace_eq.
Qed.

Lemma search_aggregation_body e query sort order filters numberOfItems offset t q :
  esQuery query filters = Ok q ->
  sent_aggregation_bodies
    (snd (search e query sort order filters numberOfItems offset t))
  = (sent_aggregation_bodies t
     ++ [AggregationBody.mk (esAggregationQuery query) ["_id"]])%list
  /\ sent_search_bodies
       (snd (search e query sort order filters numberOfItems offset t))
     = (sent_search_bodies t
        ++ [SearchBody.mk offset
              (if numberOfItems =? -1 then 1000 else numberOfItems)
              (mkScoreQuery q (getTime e))
              (fst (fst (sort_outcome e sort order)))
              search_source])%list.
Proof.
  intros H. unfold sent_aggregation_bodies, sent_search_bodies.
  rewrite (search_sends _ _ _ _ _ _ _ _ _ H), !omap_app. split; reflexivity.
Qed.

(** A search that returns has received a page from the engine and
    projected its hits one by one. *)
Lemma search_returns e query sort order filters numberOfItems offset t res :
  fst (search e query sort order filters numberOfItems offset t) = Ok res ->
  exists q resp,
    esQuery query filters = Ok q
    /\ Engine.search (engine e)
         (SearchBody.mk offset
            (if numberOfItems =? -1 then 1000 else numberOfItems)
            (mkScoreQuery q (getTime e))
            (fst (fst (sort_outcome e sort order)))
            search_source) = Ok resp
    /\ Forall2 projects (hits resp) (listings res).
Proof.
  unfold search. run_M.
  destruct (esQuery query filters) as [q|err]; [|discriminate].
  rewrite getSortQuery_eq.
  destruct (Engine.search _ _) as [resp|err] eqn:Hs; [|discriminate].
  destruct (Engine.aggregate _ _) as [agg|err]; [|discriminate].
  match goal with
  | |- context [mapM project_hit ?hs ?t0] =>
      destruct (mapM_project_hit hs t0) as [Ht Hl];
      destruct (mapM project_hit hs t0) as [[ls|err] t1]
  end; cbn [fst snd] in *; [|discriminate].
  intros H. inversion H; subst. exists q, resp.
  repeat split; auto.
Qed.

Lemma source_filter_keeps (fields : list string) (k : string) (doc : jsval) :
  existsb (String.eqb k) fields = true ->
  js_prop k (Engine.source_filter fields doc) = js_prop k doc.
Proof.
  intros Hk. destruct doc as [| | | | | |props]; try reflexivity.
  cbn. induction props as [|[k' v] props IH]; cbn; [reflexivity|].
  destruct (String.eqb_spec k k') as [<-|Hne].
  - rewrite Hk. cbn. rewrite String.eqb_refl. reflexivity.
  - destruct (existsb (String.eqb k') fields); [|exact IH].
    cbn. apply String.eqb_neq in Hne. rewrite Hne. exact IH.
Qed.

(* ------------------------------------------------------------------ *)
(** ** The queries that [search] sends *)

(** C1, as stated, fails: for the text query "bike" and one category
    filter, the aggregation query that is sent keeps both ranking clauses
    and has no filter clause, so it is not the ranked query with its
    [should] clauses removed. *)
Lemma aggregation_query_not_stripped_ranked_query :
  List.map AggregationBody.query
    (sent_aggregation_bodies
       (snd (search (sample_env 1) (Some "bike") None None
               (Some [category_filter]) 10 0 no_trace)))
  = [BoolQuery.mk
       [all_text_clause "bike"]
       [withdrawn_clause; invalid_clause; hidden_clause]
       [title_clause "bike"; phrase_clause "bike"]
       []]
  /\ List.map (fun b => BoolQuery.strip_should (fs_query (SearchBody.query b)))
       (sent_search_bodies
          (snd (search (sample_env 1) (Some "bike") None None
                  (Some [category_filter]) 10 0 no_trace)))
     = [BoolQuery.mk
          [all_text_clause "bike"]
          [withdrawn_clause; invalid_clause; hidden_clause]
          []
          [VObj [("term", VObj [("category", VStr "schema.forSale")])]]]
  /\ List.map AggregationBody.query
       (sent_aggregation_bodies
          (snd (search (sample_env 1) (Some "bike") None None
                  (Some [category_filter]) 10 0 no_trace)))
     <> List.map
          (fun b => BoolQuery.strip_should (fs_query (SearchBody.query b)))
          (sent_search_bodies
             (snd (search (sample_env 1) (Some "bike") None None
                     (Some [category_filter]) 10 0 no_trace))).
Proof.
  split; [vm_compute; reflexivity|]. split; [vm_compute; reflexivity|].
  vm_compute. discriminate.
Qed.

(** C1, amended: whenever [search] builds its ranked query [q], it sends
    one ranked request carrying [q] and one aggregation request, and the
    aggregation query is the deep copy of the ranked query taken before
    the filter loop.  It has the ranked query's [must], [must_not] and
    [should] clauses and no filter clause, while the ranked query has one
    filter clause per filter; whatever the leaf clauses mean, the ranked
    query selects a document exactly when the aggregation query selects it
    and all filter clauses hold. *)
Theorem aggregation_query_is_prefilter_copy :
  forall e query sort order filters numberOfItems offset t q,
    esQuery query filters = Ok q ->
    let t' := snd (search e query sort order filters numberOfItems offset t) in
    List.map AggregationBody.query (sent_aggregation_bodies t')
    = (List.map AggregationBody.query (sent_aggregation_bodies t)
       ++ [esAggregationQuery query])%list
    /\ List.map (fun b => fs_query (SearchBody.query b)) (sent_search_bodies t')
       = (List.map (fun b => fs_query (SearchBody.query b))
            (sent_search_bodies t) ++ [q])%list
    /\ BoolQuery.must (esAggregationQuery query) = BoolQuery.must q
    /\ BoolQuery.must_not (esAggregationQuery query) = BoolQuery.must_not q
    /\ BoolQuery.should (esAggregationQuery query) = BoolQuery.should q
    /\ BoolQuery.filter (esAggregationQuery query) = []
    /\ length (BoolQuery.filter q) = length (filters_or_empty filters)
    /\ forall (D : Type) (leaf : jsval -> D -> bool) (d : D),
         BoolQuery.selects leaf q d
         = BoolQuery.selects leaf (esAggregationQuery query) d
           && forallb (fun c => leaf c d) (BoolQuery.filter q).
Proof.
  intros e query sort order filters numberOfItems offset t q H t'.
  destruct (search_aggregation_body e query sort order filters numberOfItems
              offset t q H) as [Ha Hs].
  subst t'. rewrite Ha, Hs, !List.map_app. cbn [List.map].
  split; [reflexivity|]. split; [reflexivity|].
  unfold esQuery in H.
  destruct (filters_forEach_frame _ _ _ H) as (Hm & Hn & Hsh & Hf).
  rewrite esAggregationQuery_eq, esQuery_text_filter in *.
  repeat split; try congruence; [exact Hf|].
  intros D leaf d. unfold BoolQuery.selects.
  rewrite Hm, Hn, esQuery_text_filter. simpl.
  rewrite andb_true_r.
  destruct (forallb _ (BoolQuery.must _)), (forallb _ (BoolQuery.filter q)),
    (existsb _ _); reflexivity.
Qed.

Lemma aggregation_query_is_prefilter_copy_witness :
  esQuery (Some "bike") (Some [category_filter; greater_filter])
  = Ok (BoolQuery.mk
          [all_text_clause "bike"]
          [withdrawn_clause; invalid_clause; hidden_clause]
          [title_clause "bike"; phrase_clause "bike"]
          [VObj [("term", VObj [("category", VStr "schema.forSale")])];
           VObj []])
  /\ List.map AggregationBody.query
       (sent_aggregation_bodies
          (snd (search (sample_env 1) (Some "bike") None None
                  (Some [category_filter; greater_filter]) 10 0 no_trace)))
     = [esAggregationQuery (Some "bike")]
  /\ BoolQuery.should (esAggregationQuery (Some "bike"))
     = [title_clause "bike"; phrase_clause "bike"]
  /\ BoolQuery.filter (esAggregationQuery (Some "bike")) = [].
Proof.
  split; [reflexivity|].
  destruct (aggregation_query_is_prefilter_copy (sample_env 1)
              (Some "bike") None None
              (Some [category_filter; greater_filter]) 10 0 no_trace
              _ eq_refl)
    as (Ha & _ & _ & _ & Hs & Hf & _).
  split; [exact Ha|]. split; [exact Hs | exact Hf].
Defined.

(** C6 at the failing input: a [GREATER] filter does contribute a clause,
    the empty object, to the ranked query that is sent, and the query
    differs from the one built without that filter. *)
Theorem unhandled_filter_pushes_empty_clause :
  esQuery None (Some [greater_filter])
  = Ok (BoolQuery.mk [match_all_clause]
          [withdrawn_clause; invalid_clause; hidden_clause] [] [VObj []])
  /\ esQuery None (Some [])
     = Ok (BoolQuery.mk [match_all_clause]
             [withdrawn_clause; invalid_clause; hidden_clause] [] [])
  /\ esQuery None (Some [greater_filter]) <> esQuery None (Some [])
  /\ List.map (fun b => BoolQuery.filter (fs_query (SearchBody.query b)))
       (sent_search_bodies
          (snd (search (sample_env 1) None None None (Some [greater_filter])
                  10 0 no_trace)))
     = [[VObj []]].
Proof.
  split; [reflexivity|]. split; [reflexivity|]. split; [discriminate|].
  vm_compute. reflexivity.
Qed.

(** C10: with [numberOfItems = -1] every ranked request that [search]
    sends asks for 1000 items, and the returned [listings] array has at
    most 1000 entries. *)
Theorem page_size_sentinel :
  forall e query sort order filters offset t,
    (forall body,
        In body (sent_search_bodies
                   (snd (search e query sort order filters (-1) offset t))) ->
        In body (sent_search_bodies t) \/ SearchBody.size body = 1000)
    /\ (forall res,
           fst (search e query sort order filters (-1) offset t) = Ok res ->
           (length (listings res) <= 1000)%nat).
Proof.
  intros e query sort order filters offset t. split.
  - intros body. unfold sent_search_bodies.
    destruct (esQuery query filters) as [q|err] eqn:Hq.
    + rewrite (search_sends _ _ _ _ _ _ _ _ _ Hq), omap_app.
      rewrite in_app_iff. cbn. intros [H|[<-|[]]]; [left; exact H | right].
      reflexivity.
    + rewrite (search_raises_early _ _ _ _ _ _ _ _ _ Hq). cbn [snd]. auto.
  - intros res H. apply search_returns in H as (q & resp & _ & Hs & Hp).
    apply Engine_search_page in Hs as [Hlen _]. cbn in Hlen.
    apply Forall2_length in Hp. lia.
Qed.

Lemma page_size_sentinel_witness :
  match fst (search (sample_env 1500) None None None None (-1) 0 no_trace) with
  | Ok res => (length (listings res) <= 1000)%nat
  | Throw _ => False
  end.
Proof.
  destruct (fst (search (sample_env 1500) None None None None (-1) 0
                   no_trace)) as [res|err] eqn:H.
  - exact (proj2 (page_size_sentinel (sample_env 1500) None None None None 0
                    no_trace) res H).
  - vm_compute in H. discriminate H.
Defined.

(** The engine is asked for six fields only, so [category] and
    [subCategory] never reach the projection; [title] and [description]
    do. *)
Lemma search_projection e query sort order filters numberOfItems offset t res :
  fst (search e query sort order filters numberOfItems offset t) = Ok res ->
  Forall (fun l =>
            ListingView.category l = VUndefined
            /\ ListingView.subCategory l = VUndefined
            /\ exists doc,
                 ListingView.title l = js_prop "title" doc
                 /\ ListingView.description l = js_prop "description" doc)
         (listings res).
Proof.
  intros H. apply search_returns in H as (q & resp & _ & Hs & Hp).
  apply Engine_search_page in Hs as [_ Hdocs]. cbn in Hdocs.
  induction Hp as [|h l hs ls Hhl _ IH]; [constructor|].
  inversion Hdocs as [|? ? [doc Hdoc] Hrest]; subst.
  constructor; [|apply IH; exact Hrest].
  destruct Hhl as (_ & Ht & Hc & Hsc & Hd & _).
  rewrite Hdoc in Ht, Hc, Hsc, Hd.
  rewrite source_filter_drops in Hc by reflexivity.
  rewrite source_filter_drops in Hsc by reflexivity.
  rewrite source_filter_keeps in Ht by reflexivity.
  rewrite source_filter_keeps in Hd by reflexivity.
  eauto.
Qed.

(** C5 at the failing input: the stored listing has a category and a
    sub-category, and the view returned for it has neither. *)
Theorem category_lost_in_projection :
  js_prop "category" sample_listing = VStr "schema.forSale"
  /\ js_prop "subCategory" sample_listing = VStr "schema.bicycles"
  /\ fst (search (sample_env 1) None None None None 10 0 no_trace)
     = Ok (mkSearchResult
             [ListingView.mk "1-000-1" (VStr "Bike") VUndefined VUndefined
                (VStr "A red bike")
                (ListingView.mkPrice (VStr "10") (VStr "fiat-USD"))]
             (mkStats (VNum 10) (VNum 10) 1)).
Proof. repeat split; vm_compute; reflexivity. Qed.

(* ------------------------------------------------------------------ *)
(** ** Score tag updates *)

(** The outcome of the partial update has no influence on what
    [updateScoreTags] returns. *)
Lemma updateScoreTags_ignores_update e u id scoreTags t :
  fst (updateScoreTags (with_update e u) id scoreTags t)
  = fst (updateScoreTags e id scoreTags t).
Proof.
  unfold updateScoreTags, with_update. run_M. cbn [engine Engine.get scoreListing].
  destruct (Engine.get (engine e) id) as [r|err]; [|reflexivity].
  destruct (rbind _ _) as [l|err]; [|reflexivity].
  destruct (scoreListing e l) as [sc|err]; [|reflexivity].
  destruct (read_prop _ sc) as [m|err]; [|reflexivity].
  destruct (set_prop _ m l) as [l'|err]; reflexivity.
Qed.

(** A rejected read of the listing, which is awaited, does reach the
    caller. *)
Lemma updateScoreTags_get_failure e id scoreTags t err :
  Engine.get (engine e) id = Throw err ->
  fst (updateScoreTags e id scoreTags t) = Throw err.
Proof. intros H. unfold updateScoreTags. run_M. rewrite H. reflexivity. Qed.

(** C4 at the failing input: the engine rejects the partial update, the
    request was sent, and [updateScoreTags] returns the listing
    normally. *)
Theorem rejected_update_is_dropped :
  Engine.update (engine (sample_env 1)) "1-000-1" ["Hide"] (VNum 1)
  = Throw (Rejected "update")
  /\ requests (snd (updateScoreTags (sample_env 1) "1-000-1" ["Hide"] no_trace))
     = [ReqGet "1-000-1"; ReqUpdate "1-000-1" ["Hide"] (VNum 1)]
  /\ fst (updateScoreTags (sample_env 1) "1-000-1" ["Hide"] no_trace)
     = Ok (VObj [("title", VStr "Bike");
                 ("description", VStr "A red bike");
                 ("category", VStr "schema.forSale");
                 ("subCategory", VStr "schema.bicycles");
                 ("price", VObj [("amount", VStr "10");
                                 ("currency", VObj [("id", VStr "fiat-USD")])]);
                 ("status", VStr "active");
                 ("valid", VBool true);
                 ("scoreTags", VArr [VStr "Hide"]);
                 ("scoreMultiplier", VNum 1)]).
Proof. repeat split; vm_compute; reflexivity. Qed.

(* ------------------------------------------------------------------ *)
(** ** Deep copies *)

Lemma json_clone_json (v : jsval) : json_value v = true -> json_clone v = v.
Proof.
  induction v as [| | | | |items IH|props IH] using jsval_deep_ind;
    intros Hv; try reflexivity; try discriminate.
  - cbn in Hv |- *. f_equal.
    induction IH as [|x rest Hx _ IHrest]; [reflexivity|].
    cbn in Hv |- *. apply andb_true_iff in Hv as [Hx' Hrest].
    rewrite (IHrest Hrest). f_equal.
    destruct x; try discriminate; try reflexivity; apply Hx; exact Hx'.
  - cbn in Hv |- *. f_equal.
    induction IH as [|[k x] rest Hx _ IHrest]; [reflexivity|].
    cbn in Hv |- *. apply andb_true_iff in Hv as [Hx' Hrest].
    rewrite (IHrest Hrest). cbn in Hx.
    destruct x; try discriminate; try reflexivity;
      rewrite (Hx Hx'); reflexivity.
Qed.

Lemma json_clone_is_json (v : jsval) :
  v <> VUndefined -> json_value (json_clone v) = true.
Proof.
  induction v as [| | | | |items IH|props IH] using jsval_deep_ind;
    intros Hv; try reflexivity; [congruence| |].
  - clear Hv. cbn. induction IH as [|x rest Hx _ IHrest]; [reflexivity|].
    cbn. rewrite IHrest, andb_true_r.
    destruct x; try reflexivity; apply Hx; discriminate.
  - clear Hv. cbn. induction IH as [|[k x] rest Hx _ IHrest]; [reflexivity|].
    cbn in Hx |- *.
    destruct x; try exact IHrest; cbn; rewrite IHrest, andb_true_r;
      try reflexivity; apply Hx; discriminate.
Qed.

(** X1.  The deep copy [JSON.parse(JSON.stringify(v))] returns a value
    without [undefined] for every defined [v], returns [v] itself when [v]
    holds no [undefined], and copying twice is copying once. *)
Theorem json_clone_fixpoint :
  forall v,
    v <> VUndefined ->
    json_value (json_clone v) = true
    /\ (json_value v = true -> json_clone v = v)
    /\ json_clone (json_clone v) = json_clone v.
Proof.
  intros v Hv. split; [apply json_clone_is_json; exact Hv|].
  split; [apply json_clone_json|].
  apply json_clone_json, json_clone_is_json. exact Hv.
Qed.

Lemma json_clone_fixpoint_witness :
  json_clone (VObj [("a", VUndefined); ("b", VArr [VUndefined; VNum 1])])
  = VObj [("b", VArr [VNull; VNum 1])]
  /\ json_value
       (json_clone (VObj [("a", VUndefined); ("b", VArr [VUndefined; VNum 1])]))
     = true.
Proof.
  split; [reflexivity|].
  apply (json_clone_fixpoint
           (VObj [("a", VUndefined); ("b", VArr [VUndefined; VNum 1])])).
  discriminate.
Defined.

(* ------------------------------------------------------------------ *)
(** ** Splitting strings *)

Lemma split_not_nil (sep : ascii) (s : string) : split sep s <> [].
Proof.
  destruct s as [|c s]; cbn; [discriminate|].
  destruct (Ascii.eqb c sep); [discriminate|].
  destruct (split sep s); discriminate.
Qed.

Lemma concat_cons_app (sep x : string) (l : list string) :
  l <> [] -> String.concat sep (x :: l) = x ++ sep ++ String.concat sep l.
Proof. destruct l; [congruence | reflexivity]. Qed.

Lemma concat_split (sep : ascii) (s : string) :
  String.concat (String sep EmptyString) (split sep s) = s.
Proof.
  induction s as [|c s IH]; [reflexivity|]. cbn [split].
  destruct (Ascii.eqb_spec c sep) as [->|Hne].
  - rewrite concat_cons_app by apply split_not_nil.
    rewrite IH. reflexivity.
  - pose proof (split_not_nil sep s) as Hnn.
    destruct (split sep s) as [|h t]; [congruence|].
    destruct t as [|h' t'].
    + cbn in IH |- *. rewrite IH. reflexivity.
    + rewrite concat_cons_app by discriminate.
      rewrite concat_cons_app in IH by discriminate.
      rewrite <- IH. reflexivity.
Qed.

Lemma split_pieces (sep : ascii) (s : string) :
  Forall (fun v => count_char sep v = 0%nat) (split sep s).
Proof.
  induction s as [|c s IH]; cbn [split].
  - repeat constructor.
  - destruct (Ascii.eqb c sep) eqn:Hc.
    + constructor; [reflexivity | exact IH].
    + destruct (split sep s) as [|h t].
      * constructor; [|constructor]. cbn. rewrite Hc. reflexivity.
      * inversion IH; subst. constructor; [|assumption].
        cbn. rewrite Hc. assumption.
Qed.

Lemma split_length (sep : ascii) (s : string) :
  length (split sep s) = S (count_char sep s).
Proof.
  induction s as [|c s IH]; cbn [split count_char]; [reflexivity|].
  destruct (Ascii.eqb c sep).
  - cbn. rewrite IH. reflexivity.
  - pose proof (split_not_nil sep s) as Hnn.
    destruct (split sep s) as [|h t]; [congruence|]. cbn in IH |- *. lia.
Qed.

(* ------------------------------------------------------------------ *)
(** ** Filters *)

Lemma filters_forEach_clauses (filters : list ListingFilter.t) :
  forall q q', filters_forEach filters q = Ok q' ->
    exists cs, Forall2 (fun f c => innerFilter f = Ok c) filters cs
               /\ BoolQuery.filter q' = (BoolQuery.filter q ++ cs)%list.
Proof.
  induction filters as [|f rest IH]; intros q q' H; cbn in H.
  - inversion H; subst. exists []. split; [constructor|].
    rewrite app_nil_r. reflexivity.
  - destruct (innerFilter f) as [c|err] eqn:Hc; cbn in H; [|discriminate].
    destruct (IH _ _ H) as (cs & Hcs & Hf). exists (c :: cs).
    split; [constructor; assumption|].
    rewrite Hf. cbn. rewrite <- app_assoc. reflexivity.
Qed.

(** X2.  When the ranked query is built, its filter clauses are the
    clauses of the given filters, one per filter and in the order of the
    filter list. *)
Theorem filter_clauses_in_order :
  forall query filters q,
    esQuery query filters = Ok q ->
    Forall2 (fun f c => innerFilter f = Ok c)
            (filters_or_empty filters) (BoolQuery.filter q).
Proof.
  intros query filters q H. unfold esQuery in H.
  destruct (filters_forEach_clauses _ _ _ H) as (cs & Hcs & Hf).
  rewrite esQuery_text_filter in Hf. cbn in Hf. rewrite Hf. exact Hcs.
Qed.

Lemma filter_clauses_in_order_witness :
  Forall2 (fun f c => innerFilter f = Ok c)
    [category_filter; contains_filter]
    [VObj [("term", VObj [("category", VStr "schema.forSale")])];
     VObj [("bool",
            VObj [("should",
                   VArr [VObj [("term", VObj [("category", VStr "a")])];
                         VObj [("term", VObj [("category", VStr "b")])];
                         VObj [("term", VObj [("category", VStr "c")])]])])]].
Proof.
  exact (filter_clauses_in_order (Some "bike")
           (Some [category_filter; contains_filter]) _ eq_refl).
Defined.

Lemma innerFilter_cases (f : ListingFilter.t) :
  if unsplittable f
  then innerFilter f
       = Throw (TypeError "filter.value.split is not a function")
  else exists c, innerFilter f = Ok c.
Proof.
  unfold unsplittable, splits_value, innerFilter.
  destruct (String.eqb (ListingFilter.operator f) "GREATER_OR_EQUAL");
    cbn; [eauto|].
  destruct (String.eqb (ListingFilter.operator f) "LESSER_OR_EQUAL");
    cbn; [eauto|].
  destruct (String.eqb (ListingFilter.operator f) "CONTAINS"); cbn.
  - destruct (String.eqb (ListingFilter.valueType f) "ARRAY_STRING"); cbn.
    + destruct (ListingFilter.value f); eauto.
    + destruct (String.eqb (ListingFilter.operator f) "EQUALS"); eauto.
  - destruct (String.eqb (ListingFilter.operator f) "EQUALS"); eauto.
Qed.

Lemma filters_forEach_cases (filters : list ListingFilter.t) :
  forall q,
    if existsb unsplittable filters
    then filters_forEach filters q
         = Throw (TypeError "filter.value.split is not a function")
    else exists q', filters_forEach filters q = Ok q'.
Proof.
  induction filters as [|f rest IH]; intros q; cbn; [eauto|].
  pose proof (innerFilter_cases f) as Hf.
  destruct (unsplittable f); cbn.
  - rewrite Hf. reflexivity.
  - destruct Hf as [c ->]. cbn. apply IH.
Qed.

(** X3.  The ranked query is built exactly when no filter that takes the
    CONTAINS/ARRAY_STRING branch has a value other than a string.
    Otherwise [search] raises a TypeError before anything happens: no
    request is sent, no rate is looked up and nothing is logged. *)
Theorem search_raises_on_unsplittable_filter :
  forall query filters,
    (existsb unsplittable (filters_or_empty filters) = false ->
     exists q, esQuery query filters = Ok q)
    /\ (existsb unsplittable (filters_or_empty filters) = true ->
        forall e sort order numberOfItems offset t,
          search e query sort order filters numberOfItems offset t
          = (Throw (TypeError "filter.value.split is not a function"), t)).
Proof.
  intros query filters. unfold esQuery.
  pose proof (filters_forEach_cases (filters_or_empty filters)
                (esQuery_text query)) as H.
  split; intros Hb; rewrite Hb in H; [exact H|].
  intros. apply search_raises_early. exact H.
Qed.

Lemma search_raises_on_unsplittable_filter_witness :
  search (sample_env 1) (Some "bike") (Some "price.amount") (Some "asc")
    (Some [category_filter; bad_contains_filter]) 10 0 no_trace
  = (Throw (TypeError "filter.value.split is not a function"), no_trace)
  /\ exists q, esQuery (Some "bike") (Some [category_filter; contains_filter])
               = Ok q.
Proof.
  split.
  - apply (proj2 (search_raises_on_unsplittable_filter (Some "bike")
                    (Some [category_filter; bad_contains_filter]))).
    reflexivity.
  - apply (proj1 (search_raises_on_unsplittable_filter (Some "bike")
                    (Some [category_filter; contains_filter]))).
    reflexivity.
Defined.

(** X4.  A CONTAINS filter on an ARRAY_STRING value builds one [term]
    clause per comma-separated piece of the value: there is one more
    clause than there are commas, no piece contains a comma, and the
    pieces joined by commas give the value back. *)
Theorem contains_filter_terms :
  forall f s,
    ListingFilter.operator f = "CONTAINS" ->
    ListingFilter.valueType f = "ARRAY_STRING" ->
    ListingFilter.value f = VStr s ->
    exists pieces,
      innerFilter f
      = Ok (VObj [("bool",
                   VObj [("should",
                          VArr (List.map
                                  (fun v =>
                                     VObj [("term",
                                            VObj [(ListingFilter.name f,
                                                   VStr v)])])
                                  pieces))])])
      /\ String.concat "," pieces = s
      /\ Forall (fun v => count_char "," v = 0%nat) pieces
      /\ length pieces = S (count_char "," s).
Proof.
  intros f s Ho Hv Hs. exists (split "," s).
  split.
  - unfold innerFilter. rewrite Ho, Hv, Hs. reflexivity.
  - split; [apply concat_split|].
    split; [apply split_pieces | apply split_length].
Qed.

Lemma contains_filter_terms_witness :
  exists pieces,
    innerFilter contains_filter
    = Ok (VObj [("bool",
                 VObj [("should",
                        VArr (List.map
                                (fun v =>
                                   VObj [("term",
                                          VObj [("category", VStr v)])])
                                pieces))])])
    /\ String.concat "," pieces = "a,b,c"
    /\ Forall (fun v => count_char "," v = 0%nat) pieces
    /\ length pieces = 3%nat.
Proof.
  exact (contains_filter_terms contains_filter "a,b,c"
           eq_refl eq_refl eq_refl).
Defined.

(** X5.  A missing query and the empty query string build the same
    ranked query.  Its only [must] clause is [{match_all: {}}] and it has
    no ranking clause, so, whenever match-all holds of a document, the
    query selects it exactly when none of the three visibility clauses
    matches it and every filter clause holds. *)
Theorem empty_query_matches_all :
  forall filters,
    esQuery None filters = esQuery (Some "") filters
    /\ forall q,
         esQuery None filters = Ok q ->
         BoolQuery.must q = [VObj [("match_all", VObj [])]]
         /\ BoolQuery.should q = []
         /\ forall (D : Type) (leaf : jsval -> D -> bool) (d : D),
              leaf (VObj [("match_all", VObj [])]) d = true ->
              BoolQuery.selects leaf q d
              = negb (leaf (VObj [("match",
                                   VObj [("status", VStr "withdrawn")])]) d
                      || leaf (VObj [("term",
                                      VObj [("valid", VBool false)])]) d
                      || leaf (VObj [("terms",
                                      VObj [("scoreTags",
                                             VArr [VStr "Hide";
                                                   VStr "Delete"])])]) d)
                && forallb (fun c => leaf c d) (BoolQuery.filter q).
Proof.
  intros filters. split; [reflexivity|]. intros q H.
  pose proof (esQuery_must_not _ _ _ H) as Hn.
  unfold esQuery in H.
  destruct (filters_forEach_frame _ _ _ H) as (Hm & _ & Hs & _).
  cbn in Hm, Hs. repeat split; [exact Hm | exact Hs |].
  intros D leaf d Hall. unfold BoolQuery.selects.
  rewrite Hm, Hn. cbn.
  unfold match_all_clause, withdrawn_clause, invalid_clause, hidden_clause.
  rewrite Hall, !orb_false_r. cbn.
  rewrite orb_assoc. apply andb_comm.
Qed.

Lemma empty_query_matches_all_witness :
  BoolQuery.selects sample_leaf
    (BoolQuery.mk [match_all_clause]
       [withdrawn_clause; invalid_clause; hidden_clause] []
       [VObj [("term", VObj [("category", VStr "schema.forSale")])]])
    sample_listing
  = true.
Proof.
  destruct (empty_query_matches_all (Some [category_filter])) as [_ H].
  destruct (H (BoolQuery.mk [match_all_clause]
                [withdrawn_clause; invalid_clause; hidden_clause] []
                [VObj [("term", VObj [("category", VStr "schema.forSale")])]])
              eq_refl) as (_ & _ & Hsel).
  rewrite (Hsel jsval sample_leaf sample_listing eq_refl). reflexivity.
Defined.

(* ------------------------------------------------------------------ *)
(** ** What [search] returns *)

Lemma search_inversion e query sort order filters numberOfItems offset t res :
  fst (search e query sort order filters numberOfItems offset t) = Ok res ->
  exists q resp agg,
    esQuery query filters = Ok q
    /\ Engine.search (engine e)
         (SearchBody.mk offset
            (if numberOfItems =? -1 then 1000 else numberOfItems)
            (mkScoreQuery q (getTime e))
            (fst (fst (sort_outcome e sort order)))
            search_source) = Ok resp
    /\ Engine.aggregate (engine e) (esAggregationQuery query) = Ok agg
    /\ Forall2 projects (hits resp) (listings res)
    /\ stats res = mkStats (js_or (max_price agg) (VNum 0))
                           (js_or (min_price agg) (VNum 0))
                           (total resp).
Proof.
  unfold search. run_M.
  destruct (esQuery query filters) as [q|err]; [|discriminate].
  rewrite getSortQuery_eq.
  destruct (Engine.search _ _) as [resp|err] eqn:Hs; [|discriminate].
  destruct (Engine.aggregate _ _) as [agg|err] eqn:Ha; [|discriminate].
  match goal with
  | |- context [mapM project_hit ?hs ?t0] =>
      destruct (mapM_project_hit hs t0) as [Ht Hl];
      destruct (mapM project_hit hs t0) as [[ls|err] t1]
  end; cbn [fst snd] in *; [|discriminate].
  intros H. inversion H; subst. exists q, resp, agg.
  repeat split; auto.
Qed.

Lemma Engine_search_inversion (eng : Engine.t) (body : SearchBody.t)
                              (resp : search_response) :
  Engine.search eng body = Ok resp ->
  exists ms,
    Engine.ranked eng (SearchBody.query body) (SearchBody.sort body) = Ok ms
    /\ 0 <= SearchBody.from body
    /\ 0 <= SearchBody.size body
    /\ hits resp
       = List.map (fun h => (fst h,
                             Engine.source_filter (SearchBody._source body)
                               (snd h)))
           (page (SearchBody.from body) (SearchBody.size body) ms)
    /\ total resp = Z.of_nat (length ms).
Proof.
  unfold Engine.search. intros H.
  destruct (Engine.ranked eng _ _) as [ms|err]; cbn [rbind] in H;
    [|discriminate].
  destruct (SearchBody.from body <? 0) eqn:Hf; [discriminate|].
  destruct (SearchBody.size body <? 0) eqn:Hz; [discriminate|].
  cbn in H. inversion H; subst; clear H. exists ms.
  apply Z.ltb_ge in Hf, Hz. repeat split; assumption.
Qed.

Lemma getSortQuery_result (e : env) (sort order : option string) (t : trace) :
  fst (getSortQuery e sort order t)
  = Ok (fst (fst (sort_outcome e sort order))).
Proof. rewrite getSortQuery_eq. reflexivity. Qed.

Lemma get_source_filter (fields : list string) (k : string)
                        (rest : list string) (doc d : jsval) :
  existsb (String.eqb k) fields = true ->
  get (Engine.source_filter fields doc) (k :: rest) d = get doc (k :: rest) d.
Proof.
  intros Hk. unfold get. cbn [get_path].
  rewrite source_filter_keeps by exact Hk. reflexivity.
Qed.

(** X6.  For an offset and a requested size that are not negative, when
    [search] returns, its listings are, in order, the views of the slice
    of the engine's ranked list that starts at [offset] and has the
    requested size: each view has the id of its document, the document's
    title and description, and the document's price with the defaults "0"
    and "fiat-USD" for a missing amount or currency. *)
Theorem search_returns_page :
  forall e query sort order filters numberOfItems offset t res,
    0 <= offset ->
    0 <= requested_size numberOfItems ->
    fst (search e query sort order filters numberOfItems offset t) = Ok res ->
    exists q sortQuery ranked,
      esQuery query filters = Ok q
      /\ fst (getSortQuery e sort order t) = Ok sortQuery
      /\ Engine.ranked (engine e) (mkScoreQuery q (getTime e)) sortQuery
         = Ok ranked
      /\ Forall2 view_of
           (page offset (requested_size numberOfItems) ranked)
           (listings res).
Proof.
  intros e query sort order filters numberOfItems offset t res _ _ H.
  apply search_inversion in H as (q & resp & agg & Hq & Hs & _ & Hp & _).
  apply Engine_search_inversion in Hs as (ms & Hr & _ & _ & Hh & _).
  cbn in Hr, Hh.
  exists q, (fst (fst (sort_outcome e sort order))), ms.
  rewrite getSortQuery_result. repeat split; try assumption.
  unfold requested_size. rewrite Hh in Hp. clear Hh.
  remember (page offset _ ms) as pg eqn:Hpg. clear Hpg.
  remember (listings res) as ls eqn:Hls. clear Hls.
  revert ls Hp. induction pg as [|h pg IH]; intros ls Hp;
    inversion Hp as [|? l ? ls' Hhl Hrest]; subst; constructor.
  - destruct Hhl as (Hid & Ht & _ & _ & Hd & Hpr). cbn [fst snd] in *.
    unfold view_of. rewrite Hid, Ht, Hd, Hpr.
    rewrite !source_filter_keeps by reflexivity.
    rewrite !get_source_filter by reflexivity. repeat split.
  - apply IH. exact Hrest.
Qed.

Lemma search_returns_page_witness :
  match fst (search (env_of [("1-000-1", sample_listing);
                             ("1-000-2", unpriced_listing);
                             ("1-000-3", sample_listing)])
               None None None None 1 1 no_trace) with
  | Ok res =>
      List.map ListingView.id (listings res) = ["1-000-2"]
      /\ List.map ListingView.price (listings res)
         = [ListingView.mkPrice (VStr "0") (VStr "fiat-USD")]
  | Throw _ => False
  end.
Proof.
  destruct (fst (search (env_of [("1-000-1", sample_listing);
                                 ("1-000-2", unpriced_listing);
                                 ("1-000-3", sample_listing)])
                   None None None None 1 1 no_trace)) as [res|err] eqn:H.
  - destruct (search_returns_page _ _ _ _ _ 1 1 _ _ ltac:(lia) ltac:(cbn; lia) H)
      as (q & sq & ranked & _ & _ & Hr & Hv).
    cbn in Hr. inversion Hr; subst ranked. cbn in Hv.
    inversion Hv as [|? l ? ls (Hid & _ & _ & Hp) Hnil Ha Hb]; subst.
    inversion Hnil; subst. cbn [List.map].
    rewrite Hid, Hp. split; reflexivity.
  - vm_compute in H. discriminate H.
Defined.

(** X7.  When [search] returns, [maxPrice] and [minPrice] are the
    engine's aggregates, with 0 in place of an aggregate that is null,
    undefined or otherwise falsy, so they are never null or undefined;
    [totalNumberOfListings] is the number of all documents the ranked
    request matches, not the length of the returned page. *)
Theorem search_stats :
  forall e query sort order filters numberOfItems offset t res,
    fst (search e query sort order filters numberOfItems offset t) = Ok res ->
    exists q sortQuery ranked agg,
      esQuery query filters = Ok q
      /\ fst (getSortQuery e sort order t) = Ok sortQuery
      /\ Engine.ranked (engine e) (mkScoreQuery q (getTime e)) sortQuery
         = Ok ranked
      /\ Engine.aggregate (engine e) (esAggregationQuery query) = Ok agg
      /\ maxPrice (stats res)
         = (if js_truthy (max_price agg) then max_price agg else VNum 0)
      /\ minPrice (stats res)
         = (if js_truthy (min_price agg) then min_price agg else VNum 0)
      /\ maxPrice (stats res) <> VNull /\ maxPrice (stats res) <> VUndefined
      /\ minPrice (stats res) <> VNull /\ minPrice (stats res) <> VUndefined
      /\ totalNumberOfListings (stats res) = Z.of_nat (length ranked).
Proof.
  intros e query sort order filters numberOfItems offset t res H.
  apply search_inversion in H as (q & resp & agg & Hq & Hs & Ha & _ & Hst).
  apply Engine_search_inversion in Hs as (ms & Hr & _ & _ & _ & Ht).
  cbn in Hr. exists q, (fst (fst (sort_outcome e sort order))), ms, agg.
  rewrite getSortQuery_result, Hst. cbn [maxPrice minPrice totalNumberOfListings].
  unfold js_or.
  repeat split; try assumption;
    try (destruct (js_truthy (max_price agg)) eqn:E;
         [destruct (max_price agg); discriminate | discriminate]);
    try (destruct (js_truthy (min_price agg)) eqn:E;
         [destruct (min_price agg); discriminate | discriminate]).
Qed.

Lemma search_stats_witness :
  match fst (search (env_of [("1-000-1", sample_listing);
                             ("1-000-2", unpriced_listing);
                             ("1-000-3", sample_listing)])
               None None None None 1 1 no_trace) with
  | Ok res => stats res = mkStats (VNum 0) (VNum 0) 3
  | Throw _ => False
  end.
Proof.
  destruct (fst (search (env_of [("1-000-1", sample_listing);
                                 ("1-000-2", unpriced_listing);
                                 ("1-000-3", sample_listing)])
                   None None None None 1 1 no_trace)) as [res|err] eqn:H.
  - destruct (search_stats _ _ _ _ _ _ _ _ _ H)
      as (q & sq & ranked & agg & _ & _ & Hr & Ha & Hmax & Hmin & _ & _ & _
          & _ & Htot).
    cbn in Hr, Ha. inversion Hr; subst ranked. inversion Ha; subst agg.
    destruct (stats res) as [mx mn tot]. cbn in *. subst. reflexivity.
  - vm_compute in H. discriminate H.
Defined.

(** X8.  Once the ranked query is built, [search] sends the ranked
    request and the aggregation request, both before it waits for either;
    if the engine rejects either of them, [search] raises and returns no
    partial result, and what it raises is the rejection of one of the two
    requests (of the rejected one, when only one is rejected). *)
Theorem search_hard_failure :
  forall e query sort order filters numberOfItems offset t q sortQuery,
    esQuery query filters = Ok q ->
    fst (getSortQuery e sort order t) = Ok sortQuery ->
    let body := SearchBody.mk offset (requested_size numberOfItems)
                  (mkScoreQuery q (getTime e)) sortQuery search_source in
    (exists err, Engine.search (engine e) body = Throw err)
    \/ (exists err,
          Engine.aggregate (engine e) (esAggregationQuery query)
          = Throw err) ->
    (exists err,
        fst (search e query sort order filters numberOfItems offset t)
        = Throw err
        /\ (Engine.search (engine e) body = Throw err
            \/ Engine.aggregate (engine e) (esAggregationQuery query)
               = Throw err))
    /\ requests (snd (search e query sort order filters numberOfItems offset t))
       = (requests t
          ++ [ReqSearch body;
              ReqAggregation
                (AggregationBody.mk (esAggregationQuery query) ["_id"])])%list.
Proof.
  intros e query sort order filters numberOfItems offset t q sortQuery
         Hq Hsq body Hfail.
  rewrite getSortQuery_result in Hsq. inversion Hsq; subst sortQuery.
  split; [|apply search_sends; exact Hq].
  subst body. unfold requested_size in *.
  unfold search. run_M. rewrite Hq, getSortQuery_eq.
  destruct (Engine.search _ _) as [resp|es] eqn:Hs.
  - destruct (Engine.aggregate _ _) as [agg|ea] eqn:Ha.
    + exfalso. destruct Hfail as [[err H]|[err H]]; discriminate H.
    + exists ea. split; [reflexivity | right; reflexivity].
  - exists es. split; [reflexivity | left; reflexivity].
Qed.

Lemma search_hard_failure_witness :
  (exists err,
      fst (search failing_env (Some "bike") None None None 10 0 no_trace)
      = Throw err
      /\ err = Rejected "search")
  /\ (exists err,
         fst (search deaf_env (Some "bike") None None None 10 0 no_trace)
         = Throw err
         /\ (err = Rejected "search" \/ err = Rejected "aggregate"))
  /\ length
       (requests
          (snd (search deaf_env (Some "bike") None None None 10 0 no_trace)))
     = 2%nat.
Proof.
  destruct (search_hard_failure failing_env (Some "bike") None None None 10 0
              no_trace _ NoSort eq_refl)
    as [(err1 & H1 & Hwhich1) _].
  { rewrite getSortQuery_result. reflexivity. }
  { left. eexists. reflexivity. }
  destruct (search_hard_failure deaf_env (Some "bike") None None None 10 0
              no_trace _ NoSort eq_refl)
    as [(err2 & H2 & Hwhich2) Hreq].
  { rewrite getSortQuery_result. reflexivity. }
  { right. eexists. reflexivity. }
  split; [|split].
  - exists err1. split; [exact H1|].
    destruct Hwhich1 as [H|H]; cbn in H; [|discriminate H].
    inversion H. reflexivity.
  - exists err2. split; [exact H2|].
    destruct Hwhich2 as [H|H]; cbn in H; inversion H; auto.
  - rewrite Hreq. reflexivity.
Defined.

Lemma search_lookups e query sort order filters numberOfItems offset t q :
  esQuery query filters = Ok q ->
  lookups (snd (search e query sort order filters numberOfItems offset t))
  = (lookups t ++ snd (sort_outcome e sort order))%list.
Proof.
  intros H. unfold search. run_M. rewrite H, getSortQuery_eq.
  destruct (Engine.search _ _) as [resp|err]; [|cbn; trace_eq].
  destruct (Engine.aggregate _ _) as [agg|err]; [|cbn; trace_eq].
  match goal with
  | |- context [mapM project_hit ?hs ?t0] =>
      destruct (mapM_project_hit hs t0) as [Ht _];
      destruct (mapM project_hit hs t0) as [[ls|err] t1]
  end; cbn [fst snd] in *; subst; cbn; trace_eq.
Qed.

Lemma sort_outcome_lookups (e : env) (sort order : option string) :
  snd (sort_outcome e sort order)
  = if redis_required e then lookup_keys currencies else [].
Proof.
  unfold sort_outcome, rates_outcome.
  destruct (redis_required e); [destruct (Promise_all _)|];
    destruct (is_set sort && is_set order);
    try destruct (includes sortWhiteList (or_empty sort)
                  && includes orderWhiteList (or_empty order));
    reflexivity.
Qed.

(** X9.  Every call of [search] that builds its ranked query reads the
    exchange rates, whether or not a sort was asked for: when the rate
    source loads, the eight rates of the supported currencies other than
    fiat-USD are looked up, in the order of the currency list. *)
Theorem search_always_reads_rates :
  forall e query sort order filters numberOfItems offset t q,
    esQuery query filters = Ok q ->
    lookups (snd (search e query sort order filters numberOfItems offset t))
    = (lookups t
       ++ if redis_required e
          then ["CNY-USD_price"; "EUR-USD_price"; "GBP-USD_price";
                "JPY-USD_price"; "KRW-USD_price"; "SGD-USD_price";
                "DAI-USD_price"; "ETH-USD_price"]
          else [])%list.
Proof.
  intros e query sort order filters numberOfItems offset t q H.
  rewrite (search_lookups _ _ _ _ _ _ _ _ _ H), sort_outcome_lookups.
  destruct (redis_required e); reflexivity.
Qed.

Lemma search_always_reads_rates_witness :
  length
    (lookups (snd (search (sample_env 1) None None None None 10 0 no_trace)))
  = 8%nat.
Proof.
  rewrite (search_always_reads_rates (sample_env 1) None None None None 10 0
             no_trace _ eq_refl).
  reflexivity.
Defined.

Lemma listed_spec (sort order : option string) :
  listed sort order
  = is_set sort && is_set order
    && (includes sortWhiteList (or_empty sort)
        && includes orderWhiteList (or_empty order)).
Proof.
  destruct sort as [s|], order as [o|]; cbn;
    rewrite ?andb_false_r; try reflexivity.
  rewrite !orb_false_r.
  destruct (String.eqb_spec s "price.amount") as [->|];
    [|cbn; rewrite andb_false_r; reflexivity].
  destruct (String.eqb_spec o "asc") as [->|]; [reflexivity|].
  destruct (String.eqb_spec o "desc") as [->|]; [reflexivity|].
  cbn. rewrite andb_false_r. reflexivity.
Qed.

(** X10.  Sort resolution never raises and has two outcomes only.  For
    sort [price.amount] with order [asc] or [desc] it is the price script
    sort, carrying that order and the exchange-rate table that
    [getExchangeRatesToUSD] returns for the supported currencies; for any
    other pair it is "no explicit sort".  The plain field sort of the
    [default:] branch is never produced. *)
Theorem sort_resolution :
  forall e sort order t,
    exists exchangeRates,
      fst (getExchangeRatesToUSD e currencies t) = Ok exchangeRates
      /\ fst (getSortQuery e sort order t)
         = Ok (if listed sort order
               then ScriptSort (or_empty order) exchangeRates
               else NoSort)
      /\ forall s o, fst (getSortQuery e sort order t) <> Ok (FieldSort s o).
Proof.
  intros e sort order t. exists (fst (fst (rates_outcome e currencies))).
  rewrite getExchangeRatesToUSD_eq, getSortQuery_result. cbn [fst].
  split; [reflexivity|].
  assert (fst (fst (sort_outcome e sort order))
          = if listed sort order
            then ScriptSort (or_empty order)
                   (fst (fst (rates_outcome e currencies)))
            else NoSort) as Heq.
  { rewrite listed_spec. unfold sort_outcome.
    destruct (rates_outcome e currencies) as [[m l] ks]. cbn [fst].
    destruct (is_set sort && is_set order); [|reflexivity]. cbn [andb].
    destruct (includes sortWhiteList (or_empty sort)) eqn:Hs; [|reflexivity].
    cbn [andb].
    destruct (includes orderWhiteList (or_empty order)); [|reflexivity].
    cbn [fst]. unfold includes, sortWhiteList in Hs. cbn in Hs.
    rewrite orb_false_r in Hs. rewrite Hs. reflexivity. }
  rewrite Heq. split; [reflexivity|].
  intros s o. destruct (listed sort order); discriminate.
Qed.

(* ------------------------------------------------------------------ *)
(** ** The exchange-rate table *)

Lemma stored_rates_lookup (c : string) (r : option string)
                          (crs : list (string * option string)) :
  (forall r', In (c, r') crs -> r' = r) ->
  forall m : gmap string string,
    (In c (List.map fst crs) ->
     stored_rates crs m !! c
     = match r with Some x => Some x | None => m !! c end)
    /\ (~ In c (List.map fst crs) -> stored_rates crs m !! c = m !! c).
Proof.
  induction crs as [|[c' r'] crs IH]; intros Hall m.
  - split; [intros [] | reflexivity].
  - assert (forall r'', In (c, r'') crs -> r'' = r) as Hall'
        by (intros r'' H; apply Hall; right; exact H).
    destruct (decide (c' = c)) as [->|Hne].
    + assert (r' = r) as -> by (apply Hall; left; reflexivity).
      split; [intros _ | intros H; exfalso; apply H; left; reflexivity].
      destruct (in_dec string_dec c (List.map fst crs)) as [Hin|Hnin].
      * destruct r as [x|]; cbn [stored_rates];
          rewrite (proj1 (IH Hall' _) Hin); reflexivity.
      * destruct r as [x|]; cbn [stored_rates];
          rewrite (proj2 (IH Hall' _) Hnin);
          [apply lookup_insert_eq | reflexivity].
    + assert (forall m' : gmap string string,
                 m' !! c = m !! c ->
                 (In c (List.map fst crs) ->
                  stored_rates crs m' !! c
                  = match r with Some x => Some x | None => m !! c end)
                 /\ (~ In c (List.map fst crs) ->
                     stored_rates crs m' !! c = m !! c)) as Hm'.
      { intros m' Heq. destruct (IH Hall' m') as [H1 H2].
        rewrite Heq in H1, H2. split; assumption. }
      cbn [List.map fst In].
      destruct r' as [x'|]; cbn [stored_rates].
      * destruct (Hm' (<[c' := x']> m)) as [H1 H2];
          [apply lookup_insert_ne; exact Hne|].
        split; [intros [Heq|Hin]; [congruence | auto] | intros Hn; auto].
      * destruct (Hm' m eq_refl) as [H1 H2].
        split; [intros [Heq|Hin]; [congruence | auto] | intros Hn; auto].
Qed.

Lemma combine_fst (e : env) (cs : list string) :
  forall rs, List.map (settled_rate e) cs = List.map Ok rs ->
    List.map fst (combine cs rs) = cs
    /\ missing_rates (combine cs rs)
       = List.map ErrorRateMissing (List.filter (rate_missing e) cs).
Proof.
  induction cs as [|c cs IH]; intros [|r rs] H; cbn in H; try discriminate.
  - split; reflexivity.
  - injection H as Hc Hrest. destruct (IH _ Hrest) as [IH1 IH2].
    cbn [combine List.map fst missing_rates List.filter].
    unfold rate_missing at 1. rewrite Hc, IH1.
    split; [reflexivity|]. destruct r; cbn; rewrite IH2; reflexivity.
Qed.

Lemma rates_outcome_table (e : env) (cs : list string) :
  redis_required e = true ->
  Forall (fun c => exists r, settled_rate e c = Ok r) cs ->
  (forall c, In c cs ->
             settled_rate e c = Ok (fst (fst (rates_outcome e cs)) !! c))
  /\ (forall c, ~ In c cs -> fst (fst (rates_outcome e cs)) !! c = None)
  /\ snd (fst (rates_outcome e cs))
     = (List.map ErrorRateMissing (List.filter (rate_missing e) cs)
        ++ [DebugExchangeRates (fst (fst (rates_outcome e cs)))])%list.
Proof.
  intros Hreq Hall. unfold rates_outcome. rewrite Hreq.
  destruct (Promise_all_fulfilled (List.map (settled_rate e) cs)) as [rs Hrs].
  { apply Forall_map. exact Hall. }
  rewrite Hrs. cbn [fst snd].
  apply Promise_all_ok in Hrs.
  destruct (combine_settled e cs rs Hrs) as [H1 H2].
  destruct (combine_fst e cs rs Hrs) as [Hfst Hmiss].
  split; [|split].
  - intros c Hin. destruct (H2 c Hin) as [r Hr].
    pose proof (H1 _ _ Hr) as Hc. rewrite Hc. f_equal.
    assert (forall r', In (c, r') (combine cs rs) -> r' = r) as Huniq.
    { intros r' Hr'. apply H1 in Hr'. congruence. }
    destruct (stored_rates_lookup c r (combine cs rs) Huniq ∅) as [Hl _].
    rewrite Hl by (rewrite Hfst; exact Hin).
    destruct r; [reflexivity | symmetry; apply lookup_empty].
  - intros c Hnin.
    destruct (stored_rates_lookup c None (combine cs rs)) with (m := (∅ : gmap string string))
      as [_ Hl].
    + intros r' Hr'. exfalso. apply Hnin. rewrite <- Hfst.
      apply in_map_iff. exists (c, r'). split; [reflexivity | exact Hr'].
    + rewrite Hl by (rewrite Hfst; exact Hnin). apply lookup_empty.
  - rewrite Hmiss. reflexivity.
Qed.

(** X11.  When the rate source loads and no lookup is rejected, the table
    that [getExchangeRatesToUSD] returns holds, for every requested
    currency, exactly what its promise settled to (the rate string, or no
    entry when the rate source has no rate), and nothing for a currency
    that was not requested; one error line is logged per requested
    currency without a rate, in request order, followed by the debug line
    with the table. *)
Theorem rates_table_when_source_answers :
  forall e cs t,
    redis_required e = true ->
    Forall (fun c => exists r, settled_rate e c = Ok r) cs ->
    exists m : gmap string string,
      fst (getExchangeRatesToUSD e cs t) = Ok m
      /\ (forall c, In c cs -> settled_rate e c = Ok (m !! c))
      /\ (forall c, ~ In c cs -> m !! c = None)
      /\ log (snd (getExchangeRatesToUSD e cs t))
         = (log t
            ++ List.map ErrorRateMissing (List.filter (rate_missing e) cs)
            ++ [DebugExchangeRates m])%list.
Proof.
  intros e cs t Hreq Hall. rewrite getExchangeRatesToUSD_eq.
  destruct (rates_outcome_table e cs Hreq Hall) as (H1 & H2 & H3).
  exists (fst (fst (rates_outcome e cs))). cbn [fst snd extend log].
  rewrite H3. repeat split; assumption.
Qed.

Lemma rates_table_when_source_answers_witness :
  exists m : gmap string string,
    fst (getExchangeRatesToUSD (sample_env 1) currencies no_trace) = Ok m
    /\ m !! "token-ETH" = Some "200"
    /\ m !! "fiat-EUR" = None
    /\ m !! "token-BTC" = None.
Proof.
  destruct (rates_table_when_source_answers (sample_env 1) currencies
              no_trace eq_refl) as (m & Hm & Hin & Hout & _).
  - repeat constructor; eexists; vm_compute; reflexivity.
  - exists m. split; [exact Hm|].
    assert (In "token-ETH" currencies) as H1 by (vm_compute; tauto).
    assert (In "fiat-EUR" currencies) as H2 by (vm_compute; tauto).
    apply Hin in H1, H2.
    assert (settled_rate (sample_env 1) "token-ETH" = Ok (Some "200")) as E1
        by (vm_compute; reflexivity).
    assert (settled_rate (sample_env 1) "fiat-EUR" = Ok None) as E2
        by (vm_compute; reflexivity).
    rewrite E1 in H1. rewrite E2 in H2.
    inversion H1 as [H1']. inversion H2 as [H2'].
    split; [reflexivity|]. split; [reflexivity|].
    apply Hout. cbv [currencies In]. intuition discriminate.
Defined.

(** X12.  [getExchangeRatesToUSD] never raises and never contacts the
    index engine, whatever the rate source does.  Either the rate source
    loaded and every lookup was answered, or the fallback table is
    returned and the only lines logged are one error line for the failure
    and the debug line with the fallback table. *)
Theorem rates_never_raise :
  forall e cs t,
    exists m : gmap string string,
      fst (getExchangeRatesToUSD e cs t) = Ok m
      /\ requests (snd (getExchangeRatesToUSD e cs t)) = requests t
      /\ ((redis_required e = true
           /\ Forall (fun c => exists r, settled_rate e c = Ok r) cs)
          \/ (m = default_exchangeRates
              /\ exists err,
                   log (snd (getExchangeRatesToUSD e cs t))
                   = (log t
                      ++ [ErrorRatesUnavailable err;
                          DebugExchangeRates default_exchangeRates])%list)).
Proof.
  intros e cs t. rewrite getExchangeRatesToUSD_eq. cbn [fst snd].
  unfold rates_outcome.
  destruct (redis_required e).
  - destruct (Promise_all (List.map (settled_rate e) cs)) as [rs|err] eqn:Hp;
      cbn [fst snd]; eexists; (split; [reflexivity|]);
      (split; [unfold extend; cbn; apply app_nil_r|]).
    + left. split; [reflexivity|].
      apply Promise_all_ok in Hp. clear -Hp.
      revert rs Hp. induction cs as [|c cs IH]; intros [|r rs] Hp;
        cbn in Hp; try discriminate; constructor.
      * injection Hp as Hc _. eauto.
      * injection Hp as _ Hrest. eauto.
    + right. split; [reflexivity|]. exists err. reflexivity.
  - cbn [fst snd]. eexists. split; [reflexivity|].
    split; [unfold extend; cbn; apply app_nil_r|].
    right. split; [reflexivity|]. eexists. reflexivity.
Qed.

(** X13.  A listing priced in a supported currency for which the rate
    source has no rate gets the sentinel sort value, although its amount
    parses: the currency is left out of the table that the sort script
    receives. *)
Theorem missing_rate_gives_sentinel :
  forall e t parseFloat order c _source,
    order = "asc" \/ order = "desc" ->
    redis_required e = true ->
    Forall (fun c' => exists r, settled_rate e c' = Ok r) currencies ->
    In c currencies ->
    settled_rate e c = Ok None ->
    get_path ["price"; "currency"; "id"] _source = VStr c ->
    exists exchangeRates,
      fst (getSortQuery e (Some "price.amount") (Some order) t)
      = Ok (ScriptSort order exchangeRates)
      /\ price_sort_script parseFloat order exchangeRates _source
         = if String.eqb order "asc" then 1000000000%Q else 0%Q.
Proof.
  intros e t parseFloat order c _source Hord Hreq Hall Hin Hnone Hcur.
  exists (fst (fst (rates_outcome e currencies))).
  split; [apply listed_sort_is_script; exact Hord|].
  destruct (rates_outcome_table e currencies Hreq Hall) as (Hlook & _).
  apply Hlook in Hin. rewrite Hnone in Hin. inversion Hin as [Hc].
  rewrite price_sort_script_eq. unfold price_in_usd.
  rewrite Hcur. cbn [as_string].
  destruct (as_string (get_path ["price"; "amount"] _source)) as [a|];
    [|reflexivity].
  cbn. destruct (parseFloat a); [|reflexivity].
  cbn. rewrite <- Hc. reflexivity.
Qed.

Lemma missing_rate_gives_sentinel_witness :
  exists exchangeRates,
    fst (getSortQuery (sample_env 1) (Some "price.amount") (Some "asc")
           no_trace)
    = Ok (ScriptSort "asc" exchangeRates)
    /\ price_sort_script parse_decimal "asc" exchangeRates euro_listing
       = 1000000000%Q.
Proof.
  apply (missing_rate_gives_sentinel (sample_env 1) no_trace parse_decimal
           "asc" "fiat-EUR" euro_listing).
  - left. reflexivity.
  - reflexivity.
  - repeat constructor; eexists; vm_compute; reflexivity.
  - vm_compute; tauto.
  - reflexivity.
  - reflexivity.
Defined.

(* ------------------------------------------------------------------ *)
(** ** The ranking script, in general *)

Lemma boostPeriod_pos : (0 < inject_Z boostPeriod)%Q.
Proof. reflexivity. Qed.

Lemma age_ratio_bounds (age : Z) :
  0 < age -> age < boostPeriod ->
  (0 <= inject_Z age / inject_Z boostPeriod)%Q
  /\ (inject_Z age / inject_Z boostPeriod < 1)%Q.
Proof.
  intros H0 H1. split.
  - apply Qle_shift_div_l; [apply boostPeriod_pos|]. rewrite Qmult_0_l.
    rewrite <- (Zle_Qle 0). lia.
  - apply Qlt_shift_div_r; [apply boostPeriod_pos|]. rewrite Qmult_1_l.
    rewrite <- Zlt_Qlt. exact H1.
Qed.

Lemma age_ratio_mono (a b : Z) :
  a <= b ->
  (inject_Z a / inject_Z boostPeriod <= inject_Z b / inject_Z boostPeriod)%Q.
Proof.
  intros H. unfold Qdiv. apply Qmult_le_compat_r.
  - rewrite <- Zle_Qle. exact H.
  - apply Qinv_le_0_compat, Qlt_le_weak, boostPeriod_pos.
Qed.

(** X15.  The boost factor is bounded for every pair of clock reading and
    timestamp: it is at least 1 and stays below 1.5, so a boosted score
    of a document with non-negative base score lies between the base
    score and one and a half times it. *)
Theorem boost_factor_bounds :
  forall now ts,
    (1 <= boost_factor now ts)%Q
    /\ (boost_factor now ts < 3 # 2)%Q
    /\ forall m _score,
         (0 <= _score * m)%Q ->
         (_score * m <= score_script now (Some m) (Some ts) _score)%Q
         /\ (score_script now (Some m) (Some ts) _score
             <= (3 # 2) * (_score * m))%Q.
Proof.
  intros now ts.
  assert ((1 <= boost_factor now ts)%Q /\ (boost_factor now ts < 3 # 2)%Q)
    as [Hlo Hhi].
  { unfold boost_factor.
    destruct (0 <? wrap64 (now - ts)) eqn:H0; cbn [andb]; [|split; lra].
    destruct (wrap64 (now - ts) <? boostPeriod) eqn:H1; [|split; lra].
    apply Z.ltb_lt in H0, H1.
    destruct (age_ratio_bounds _ H0 H1) as [Ha Hb].
    unfold recentBoostAmount.
    set (y := (inject_Z (wrap64 (now - ts)) / inject_Z boostPeriod)%Q) in *.
    split; lra. }
  split; [exact Hlo|]. split; [exact Hhi|].
  intros m s Hs. rewrite score_script_boost.
  set (b := boost_factor now ts) in *. set (x := (s * m)%Q) in *.
  assert (0 <= x * (b - 1))%Q as H1 by (apply Qmult_le_0_compat; lra).
  assert (0 <= x * ((3 # 2) - b))%Q as H2 by (apply Qmult_le_0_compat; lra).
  split; lra.
Qed.

Lemma boost_factor_bounds_witness :
  (10 * 2
   <= score_script 1600000000 (Some 2) (Some (1600000000 - 9 * 86400)%Z) 10)%Q
  /\ (score_script 1600000000 (Some 2) (Some (1600000000 - 9 * 86400)%Z) 10
      <= (3 # 2) * (10 * 2))%Q.
Proof.
  apply (boost_factor_bounds 1600000000 (1600000000 - 9 * 86400)).
  lra.
Defined.

(** X16.  Within the boost window the factor grows with age: of two
    documents, the one created earlier never has the smaller factor, as
    long as it is still inside the window. *)
Theorem boost_grows_with_age :
  forall now ts_new ts_old,
    ts_old <= ts_new ->
    - 2 ^ 63 <= now - ts_new ->
    now - ts_old < boostPeriod ->
    (boost_factor now ts_new <= boost_factor now ts_old)%Q.
Proof.
  intros now t1 t2 Hle Hlo Hhi.
  assert (boostPeriod < 2 ^ 63) as HP by reflexivity.
  unfold boost_factor. rewrite !wrap64_small by lia.
  replace (now - t2 <? boostPeriod) with true by (symmetry; apply Z.ltb_lt; lia).
  replace (now - t1 <? boostPeriod) with true by (symmetry; apply Z.ltb_lt; lia).
  rewrite !andb_true_r.
  destruct (0 <? now - t1) eqn:H1.
  - apply Z.ltb_lt in H1.
    replace (0 <? now - t2) with true by (symmetry; apply Z.ltb_lt; lia).
    pose proof (age_ratio_mono (now - t1) (now - t2) ltac:(lia)) as Hm.
    unfold recentBoostAmount.
    set (y1 := (inject_Z (now - t1) / inject_Z boostPeriod)%Q) in *.
    set (y2 := (inject_Z (now - t2) / inject_Z boostPeriod)%Q) in *.
    lra.
  - destruct (0 <? now - t2) eqn:H2; [|lra].
    apply Z.ltb_lt in H2.
    destruct (age_ratio_bounds (now - t2) H2 Hhi) as [Ha _].
    unfold recentBoostAmount.
    set (y2 := (inject_Z (now - t2) / inject_Z boostPeriod)%Q) in *.
    lra.
Qed.

Lemma boost_grows_with_age_witness :
  (boost_factor 1600000000 (1600000000 - 86400)
   <= boost_factor 1600000000 (1600000000 - 9 * 86400))%Q.
Proof.
  apply boost_grows_with_age; [lia | lia | reflexivity].
Defined.

(* ------------------------------------------------------------------ *)
(** ** Score tag updates, in general *)

Lemma assoc_get_set_eq (k : string) (v : jsval) (props : list (string * jsval)) :
  assoc_get k (assoc_set k v props) = v.
Proof.
  induction props as [|[k' v'] props IH]; cbn.
  - rewrite String.eqb_refl. reflexivity.
  - destruct (String.eqb k k') eqn:E; cbn;
      [rewrite String.eqb_refl; reflexivity | rewrite E; exact IH].
Qed.

Lemma assoc_get_set_ne (k k' : string) (v : jsval)
                       (props : list (string * jsval)) :
  k <> k' -> assoc_get k (assoc_set k' v props) = assoc_get k props.
Proof.
  intros Hne. apply String.eqb_neq in Hne.
  induction props as [|[k0 v0] props IH]; cbn.
  - rewrite Hne. reflexivity.
  - destruct (String.eqb_spec k' k0) as [->|Hne0]; cbn.
    + rewrite Hne. reflexivity.
    + destruct (String.eqb k k0); [reflexivity | exact IH].
Qed.

(** X17.  [updateScoreTags] reads the listing first and sends the partial
    update exactly when it goes on to return: a call that raises (the
    read is rejected, the document has no source, scoring is rejected)
    has sent no update, and the update that is sent carries the given
    tags and the multiplier found in the returned listing. *)
Theorem updateScoreTags_requests :
  forall e id scoreTags t,
    requests (snd (updateScoreTags e id scoreTags t))
    = (requests t
       ++ ReqGet id
          :: match fst (updateScoreTags e id scoreTags t) with
             | Ok listing =>
                 [ReqUpdate id scoreTags (js_prop "scoreMultiplier" listing)]
             | Throw _ => []
             end)%list.
Proof.
  intros e id scoreTags t. unfold updateScoreTags. run_M.
  destruct (Engine.get (engine e) id) as [r|err]; [|reflexivity].
  destruct (rbind _ _) as [l|err]; [|reflexivity].
  destruct (scoreListing e l) as [sc|err]; [|reflexivity].
  destruct (read_prop _ sc) as [m|err]; [|reflexivity].
  destruct (set_prop _ m l) as [l'|err] eqn:Hset; [|reflexivity].
  cbn [fst snd requests]. rewrite <- app_assoc. cbn [app].
  repeat f_equal. destruct l; try discriminate.
  cbn in Hset. inversion Hset; subst. cbn.
  rewrite assoc_get_set_eq. reflexivity.
Qed.

(** X18.  When [updateScoreTags] returns, the listing it returns is the
    stored source with [scoreTags] replaced by the given tags and
    [scoreMultiplier] set to what scoring computed from the listing with
    the new tags already in place; every other field is as stored. *)
Theorem updateScoreTags_listing :
  forall e id scoreTags t listing,
    fst (updateScoreTags e id scoreTags t) = Ok listing ->
    exists result props scored,
      Engine.get (engine e) id = Ok result
      /\ js_prop "_source" result = VObj props
      /\ scoreListing e
           (VObj (assoc_set "scoreTags" (VArr (List.map VStr scoreTags)) props))
         = Ok scored
      /\ js_prop "scoreTags" listing = VArr (List.map VStr scoreTags)
      /\ js_prop "scoreMultiplier" listing = js_prop "scoreMultiplier" scored
      /\ forall k, k <> "scoreTags" -> k <> "scoreMultiplier" ->
                   js_prop k listing = js_prop k (VObj props).
Proof.
  intros e id scoreTags t listing. unfold updateScoreTags. run_M.
  destruct (Engine.get (engine e) id) as [r|err]; [|discriminate].
  destruct (read_prop "_source" r) as [src|err] eqn:Hsrc; cbn [rbind];
    [|discriminate].
  destruct src as [| | | | | |props]; cbn [set_prop]; try discriminate.
  destruct (scoreListing e _) as [sc|err] eqn:Hsc; [|discriminate].
  destruct (read_prop "scoreMultiplier" sc) as [m|err] eqn:Hm; [|discriminate].
  cbn. intros H. inversion H; subst; clear H.
  exists r, props, sc.
  assert (js_prop "_source" r = VObj props) as Hr.
  { unfold read_prop in Hsrc. destruct r; inversion Hsrc; reflexivity. }
  assert (js_prop "scoreMultiplier" sc = m) as Hm'.
  { unfold read_prop in Hm. destruct sc; inversion Hm; reflexivity. }
  repeat split; try assumption; cbn.
  - rewrite assoc_get_set_ne by discriminate. apply assoc_get_set_eq.
  - rewrite assoc_get_set_eq. symmetry. exact Hm'.
  - intros k H1 H2. rewrite !assoc_get_set_ne by assumption. reflexivity.
Qed.

Lemma updateScoreTags_listing_witness :
  match fst (updateScoreTags (sample_env 1) "1-000-1" ["Hide"] no_trace) with
  | Ok listing =>
      js_prop "scoreTags" listing = VArr [VStr "Hide"]
      /\ js_prop "title" listing = VStr "Bike"
  | Throw _ => False
  end.
Proof.
  destruct (fst (updateScoreTags (sample_env 1) "1-000-1" ["Hide"] no_trace))
    as [listing|err] eqn:H.
  - destruct (updateScoreTags_listing _ _ _ _ _ H)
      as (result & props & scored & Hg & Hs & _ & Ht & _ & Hk).
    cbn in Hg. inversion Hg; subst result. cbn in Hs.
    inversion Hs; subst props.
    split; [exact Ht|]. rewrite Hk by discriminate. reflexivity.
  - vm_compute in H. discriminate H.
Defined.

(* ------------------------------------------------------------------ *)
(** ** Indexing *)

Lemma js_prop_delete_eq (k : string) (o : jsval) :
  js_prop k (delete_prop k o) = VUndefined.
Proof.
  destruct o as [| | | | | |props]; try reflexivity. cbn.
  induction props as [|[k' v] props IH]; cbn; [reflexivity|].
  destruct (String.eqb_spec k' k) as [->|Hne]; cbn; [exact IH|].
  destruct (String.eqb_spec k k'); [congruence | exact IH].
Qed.

Lemma js_prop_delete_ne (k k' : string) (o : jsval) :
  k <> k' -> js_prop k (delete_prop k' o) = js_prop k o.
Proof.
  intros Hne. destruct o as [| | | | | |props]; try reflexivity. cbn.
  induction props as [|[k0 v] props IH]; cbn; [reflexivity|].
  destruct (String.eqb_spec k0 k') as [->|Hne0]; cbn.
  - apply String.eqb_neq in Hne. rewrite Hne. exact IH.
  - destruct (String.eqb k k0); [reflexivity | exact IH].
Qed.

Lemma rmapM_Forall2 {A B} (f : A -> result B) (l : list A) :
  forall l', rmapM f l = Ok l' -> Forall2 (fun x y => f x = Ok y) l l'.
Proof.
  induction l as [|x l IH]; intros l' H; cbn in H.
  - inversion H. constructor.
  - destruct (f x) as [y|err] eqn:Hx; cbn in H; [|discriminate].
    destruct (rmapM f l) as [ys|err]; cbn in H; [|discriminate].
    inversion H; subst. constructor; auto.
Qed.

Lemma strip_offer_stripped (offer offer' : jsval) :
  strip_offer offer = Ok offer' ->
  js_prop "ipfs" offer' = VUndefined
  /\ js_prop "timeSlots" offer' = VUndefined.
Proof.
  intros H.
  assert (offer' = delete_prop "timeSlots" (delete_prop "ipfs" offer)) as ->
      by (destruct offer; inversion H; reflexivity).
  split; [|apply js_prop_delete_eq].
  rewrite js_prop_delete_ne by discriminate. apply js_prop_delete_eq.
Qed.

(** The document as it stands before scoring. *)
Lemma listingToIndex_stripped (listing : list (string * jsval)) (doc : jsval) :
  listingToIndex listing = Ok doc ->
  (exists props, doc = VObj props)
  /\ js_prop "ipfs" doc = VUndefined
  /\ js_prop "availability" doc = VUndefined
  /\ (forall items,
         js_prop "offers" doc = VArr items ->
         Forall (fun o => js_prop "ipfs" o = VUndefined
                          /\ js_prop "timeSlots" o = VUndefined) items)
  /\ forall k, k <> "ipfs" -> k <> "availability" -> k <> "offers" ->
               js_prop k doc = js_prop k (json_clone (VObj listing)).
Proof.
  unfold listingToIndex, strip_offers.
  set (c := json_clone (VObj listing)).
  assert (exists cps, c = VObj cps) as [cps Hc] by (cbn; eauto).
  set (d := delete_prop "availability" (delete_prop "ipfs" c)).
  assert (exists dps, d = VObj dps) as [dps Hd]
      by (subst d; rewrite Hc; cbn; eauto).
  assert (js_prop "ipfs" d = VUndefined) as Hi.
  { subst d. rewrite js_prop_delete_ne by discriminate.
    apply js_prop_delete_eq. }
  assert (js_prop "availability" d = VUndefined) as Ha
      by (subst d; apply js_prop_delete_eq).
  assert (forall k, k <> "ipfs" -> k <> "availability" ->
                    js_prop k d = js_prop k c) as Hk.
  { intros k H1 H2. subst d. rewrite !js_prop_delete_ne by assumption.
    reflexivity. }
  destruct (js_truthy (js_prop "offers" d)) eqn:Ho.
  - destruct (js_prop "offers" d) as [| | | | |items|] eqn:Hoff;
      try discriminate.
    destruct (rmapM strip_offer items) as [items'|err] eqn:Hmap;
      cbn [rbind]; [|discriminate].
    rewrite Hd. cbn [set_prop]. intros H. inversion H; subst doc; clear H.
    cbn [js_prop].
    rewrite Hd in Hi, Ha, Hk. cbn [js_prop] in Hi, Ha.
    split; [eauto|].
    split; [rewrite assoc_get_set_ne by discriminate; exact Hi|].
    split; [rewrite assoc_get_set_ne by discriminate; exact Ha|].
    split.
    + rewrite assoc_get_set_eq. intros items0 Hit. inversion Hit; subst items0.
      apply rmapM_Forall2 in Hmap. clear -Hmap.
      induction Hmap as [|o o' l l' Ho _ IH]; constructor; [|exact IH].
      apply (strip_offer_stripped _ _ Ho).
    + intros k H1 H2 H3. rewrite assoc_get_set_ne by exact H3.
      exact (Hk k H1 H2).
  - intros H. inversion H; subst doc; clear H.
    split; [eauto|]. split; [exact Hi|]. split; [exact Ha|].
    split.
    + intros items Hit. rewrite Hit in Ho. discriminate Ho.
    + intros k H1 H2 _. apply Hk; assumption.
Qed.

(** X19.  When [Listing.index] returns, it returns the listing id, and the
    one document it handed to the engine, under that id and accepted by
    it, has no [ipfs] and no [availability] field, has offers without
    [ipfs] and [timeSlots], carries the [scoreMultiplier] that scoring
    computed from the stripped document, and agrees with the JSON copy of
    the listing on every other field. *)
Theorem index_sends_stripped_document :
  forall e client_index listingId buyerAddress ipfsHash listing r,
    returned (index e client_index listingId buyerAddress ipfsHash listing)
    = Ok r ->
    r = listingId
    /\ exists body doc scored,
         indexed (index e client_index listingId buyerAddress ipfsHash listing)
         = [(listingId, body)]
         /\ client_index listingId body = Ok tt
         /\ listingToIndex listing = Ok doc
         /\ scoreListing e doc = Ok scored
         /\ js_prop "scoreMultiplier" body = js_prop "scoreMultiplier" scored
         /\ js_prop "ipfs" body = VUndefined
         /\ js_prop "availability" body = VUndefined
         /\ (forall items,
                js_prop "offers" body = VArr items ->
                Forall (fun o => js_prop "ipfs" o = VUndefined
                                 /\ js_prop "timeSlots" o = VUndefined) items)
         /\ forall k, k <> "ipfs" -> k <> "availability" -> k <> "offers" ->
                      k <> "scoreMultiplier" ->
                      js_prop k body = js_prop k (json_clone (VObj listing)).
Proof.
  intros e ci id b h listing r. unfold index.
  destruct (listingToIndex listing) as [doc|err] eqn:Hdoc; [|discriminate].
  destruct (listingToIndex_stripped _ _ Hdoc)
    as ([props ->] & Hi & Ha & Ho & Hk).
  destruct (scoreListing e (VObj props)) as [sc|err] eqn:Hsc; cbn [rbind];
    [|discriminate].
  destruct (read_prop "scoreMultiplier" sc) as [m|err] eqn:Hm; [|discriminate].
  cbn [set_prop returned indexed].
  destruct (ci id _) as [[]|err] eqn:Hci; cbn [rbind]; [|discriminate].
  intros H. inversion H; subst r. split; [reflexivity|].
  exists (VObj (assoc_set "scoreMultiplier" m props)), (VObj props), sc.
  assert (js_prop "scoreMultiplier" sc = m) as Hm'.
  { unfold read_prop in Hm. destruct sc; inversion Hm; reflexivity. }
  cbn [js_prop] in *.
  repeat split; try assumption; try reflexivity.
  - rewrite assoc_get_set_eq. symmetry. exact Hm'.
  - rewrite assoc_get_set_ne by discriminate. exact Hi.
  - rewrite assoc_get_set_ne by discriminate. exact Ha.
  - intros items. rewrite assoc_get_set_ne by discriminate. apply Ho.
  - intros k H1 H2 H3 H4. rewrite assoc_get_set_ne by exact H4.
    apply Hk; assumption.
Qed.

Lemma index_sends_stripped_document_witness :
  match indexed (index (sample_env 1) (fun _ _ => Ok tt) "1-000-7" "0xbuyer"
                   "0xhash" raw_listing) with
  | [(id, body)] =>
      id = "1-000-7"
      /\ js_prop "ipfs" body = VUndefined
      /\ js_prop "availability" body = VUndefined
      /\ js_prop "title" body = VStr "Room"
      /\ js_prop "offers" body = VArr [VObj [("id", VStr "0")]]
  | _ => False
  end.
Proof.
  destruct (index_sends_stripped_document (sample_env 1) (fun _ _ => Ok tt)
              "1-000-7" "0xbuyer" "0xhash" raw_listing "1-000-7")
    as (_ & body & doc & scored & Hidx & _ & Hdoc & _ & _ & Hi & Ha & _ & Hk).
  - vm_compute. reflexivity.
  - rewrite Hidx. split; [reflexivity|]. split; [exact Hi|].
    split; [exact Ha|]. split; [rewrite Hk by discriminate; reflexivity|].
    vm_compute in Hidx. inversion Hidx. reflexivity.
Defined.

(** X20.  [Listing.index] writes at most once.  Either it raises before
    anything is handed to the engine (the copy cannot be stripped, or
    scoring is rejected), or it hands over exactly one document under the
    listing id and its outcome is the engine's: the listing id when the
    write is accepted, the engine's rejection when it is not. *)
Theorem index_outcome :
  forall e client_index listingId buyerAddress ipfsHash listing,
    match indexed (index e client_index listingId buyerAddress ipfsHash
                     listing) with
    | [] =>
        exists err,
          returned (index e client_index listingId buyerAddress ipfsHash
                      listing) = Throw err
    | [(id, body)] =>
        id = listingId
        /\ returned (index e client_index listingId buyerAddress ipfsHash
                       listing)
           = match client_index listingId body with
             | Ok _ => Ok listingId
             | Throw err => Throw err
             end
    | _ => False
    end.
Proof.
  intros e ci id b h listing. unfold index.
  destruct (listingToIndex listing) as [doc|err]; [|cbn; eauto].
  destruct (rbind (scoreListing e doc) _) as [m|err]; [|cbn; eauto].
  destruct (set_prop "scoreMultiplier" m doc) as [body|err]; [|cbn; eauto].
  cbn. split; [reflexivity|].
  destruct (ci id body); reflexivity.
Qed.

(* ------------------------------------------------------------------ *)
(** ** Visibility *)

Lemma page_incl (from size : Z) (ranked : list (string * jsval))
                (h : string * jsval) :
  In h (page from size ranked) -> In h ranked.
Proof.
  unfold page. intros H.
  rewrite <- (List.firstn_skipn (Z.to_nat from) ranked).
  apply in_or_app. right.
  rewrite <- (List.firstn_skipn (Z.to_nat size)
                (skipn (Z.to_nat from) ranked)).
  apply in_or_app. left. exact H.
Qed.

(** C3: whatever the query string and the filters, every ranked request
    that a call of [search] sends carries in [must_not] exactly the three
    clauses [{match: {status: 'withdrawn'}}], [{term: {valid: false}}] and
    [{terms: {scoreTags: ['Hide', 'Delete']}}], so its query selects no
    document that one of them matches, whatever else matches.  Hence,
    with an engine that answers a ranked request with documents its query
    selects, every listing that [search] returns is the view of a
    document of the engine's answer that is not withdrawn, not invalid
    and carries neither tag. *)
Theorem visibility_rules_unconditional :
  forall e query sort order filters numberOfItems offset t,
    (forall body,
        In body (sent_search_bodies
                   (snd (search e query sort order filters numberOfItems
                           offset t))) ->
        In body (sent_search_bodies t)
        \/ (BoolQuery.must_not (fs_query (SearchBody.query body))
            = [VObj [("match", VObj [("status", VStr "withdrawn")])];
               VObj [("term", VObj [("valid", VBool false)])];
               VObj [("terms",
                      VObj [("scoreTags",
                             VArr [VStr "Hide"; VStr "Delete"])])]]
            /\ forall (D : Type) (leaf : jsval -> D -> bool) (d : D),
                 leaf (VObj [("match",
                              VObj [("status", VStr "withdrawn")])]) d
                 || leaf (VObj [("term", VObj [("valid", VBool false)])]) d
                 || leaf (VObj [("terms",
                                 VObj [("scoreTags",
                                        VArr [VStr "Hide"; VStr "Delete"])])])
                         d = true ->
                 BoolQuery.selects leaf (fs_query (SearchBody.query body)) d
                 = false))
    /\ (forall leaf res,
           engine_respects leaf (engine e) ->
           understands_visibility leaf ->
           fst (search e query sort order filters numberOfItems offset t)
           = Ok res ->
           exists q sortQuery ranked,
             esQuery query filters = Ok q
             /\ fst (getSortQuery e sort order t) = Ok sortQuery
             /\ Engine.ranked (engine e) (mkScoreQuery q (getTime e)) sortQuery
                = Ok ranked
             /\ Forall (fun l =>
                          exists d,
                            In (ListingView.id l, d) ranked
                            /\ ~ withdrawn_doc d
                            /\ ~ invalid_doc d
                            /\ ~ hidden_doc d)
                       (listings res)).
Proof.
  intros e query sort order filters numberOfItems offset t. split.
  - intros body.
    destruct (esQuery query filters) as [q|err] eqn:Hq.
    + destruct (search_aggregation_body e query sort order filters
                  numberOfItems offset t q Hq) as [_ Hs].
      rewrite Hs, in_app_iff. intros [H|[<-|[]]]; [left; exact H | right].
      cbn [SearchBody.query fs_query].
      pose proof (esQuery_must_not _ _ _ Hq) as Hn.
      split; [exact Hn|]. intros D leaf d Hd.
      apply selects_must_not. rewrite Hn. cbn [existsb].
      rewrite orb_false_r, orb_assoc. exact Hd.
    + rewrite (search_raises_early _ _ _ _ _ _ _ _ _ Hq). cbn [snd]. auto.
  - intros leaf res Heng (Hw & Hv & Hh) H.
    apply search_inversion in H as (q & resp & agg & Hq & Hs & _ & Hp & _).
    apply Engine_search_inversion in Hs as (ms & Hr & _ & _ & Hhits & _).
    cbn in Hr, Hhits.
    exists q, (fst (fst (sort_outcome e sort order))), ms.
    rewrite getSortQuery_result.
    split; [exact Hq|]. split; [reflexivity|]. split; [exact Hr|].
    pose proof (Heng _ _ _ Hr) as Hsel. cbn [fs_query] in Hsel.
    pose proof (esQuery_must_not _ _ _ Hq) as Hn.
    assert (forall h, In h ms ->
                      ~ withdrawn_doc (snd h) /\ ~ invalid_doc (snd h)
                      /\ ~ hidden_doc (snd h)) as Hvis.
    { intros h Hin. rewrite List.Forall_forall in Hsel.
      specialize (Hsel h Hin). unfold BoolQuery.selects in Hsel.
      rewrite Hn in Hsel. cbn [existsb] in Hsel.
      apply andb_true_iff in Hsel as [_ Hsel].
      apply negb_true_iff in Hsel.
      apply orb_false_iff in Hsel as [H1 Hsel].
      apply orb_false_iff in Hsel as [H2 Hsel].
      apply orb_false_iff in Hsel as [H3 _].
      repeat split; intros Hd.
      - apply Hw in Hd. unfold withdrawn_clause in H1. congruence.
      - apply Hv in Hd. unfold invalid_clause in H2. congruence.
      - apply Hh in Hd. unfold hidden_clause in H3. congruence. }
    assert (forall h, In h (page offset
                              (if numberOfItems =? -1 then 1000
                               else numberOfItems) ms) -> In h ms) as Hsub
        by (intros h; apply page_incl).
    rewrite Hhits in Hp. clear Hhits.
    remember (page offset _ ms) as pg eqn:Hpg. clear Hpg.
    remember (listings res) as ls eqn:Hls. clear Hls.
    revert ls Hp. induction pg as [|h pg IH]; intros ls Hp;
      inversion Hp as [|? l ? ls' Hhl Hrest]; subst; constructor.
    + destruct Hhl as (Hid & _). cbn [fst] in Hid.
      exists (snd h). rewrite Hid.
      replace (fst h, snd h) with h by (destruct h; reflexivity).
      split; [apply Hsub; left; reflexivity|].
      apply Hvis, Hsub. left. reflexivity.
    + apply IH; [|exact Hrest]. intros h' Hin. apply Hsub. right. exact Hin.
Qed.

Lemma moderated_engine_respects (docs : list (string * jsval)) :
  engine_respects sample_leaf (moderated_engine docs).
Proof.
  intros q s ranked Hr. unfold moderated_engine in Hr.
  cbv beta iota delta [Engine.ranked] in Hr.
  assert (List.filter
            (fun h => BoolQuery.selects sample_leaf (fs_query q) (snd h)) docs
          = ranked) as <- by congruence.
  apply List.Forall_forall. intros h Hin.
  apply filter_In in Hin as [_ Hs]. exact Hs.
Qed.

Lemma visibility_rules_unconditional_witness :
  match fst (search (moderated_env [("1-000-1", sample_listing);
                                    ("1-000-2", withdrawn_listing)])
               (Some "bike") None None None 10 0 no_trace) with
  | Ok res =>
      List.map ListingView.id (listings res) = ["1-000-1"]
      /\ Forall (fun l =>
                   exists d,
                     In (ListingView.id l, d) [("1-000-1", sample_listing)]
                     /\ ~ withdrawn_doc d
                     /\ ~ invalid_doc d
                     /\ ~ hidden_doc d)
                (listings res)
  | Throw _ => False
  end.
Proof.
  destruct (fst (search (moderated_env [("1-000-1", sample_listing);
                                        ("1-000-2", withdrawn_listing)])
                   (Some "bike") None None None 10 0 no_trace))
    as [res|err] eqn:H.
  - split; [vm_compute in H; inversion H; reflexivity|].
    destruct (proj2 (visibility_rules_unconditional
                       (moderated_env [("1-000-1", sample_listing);
                                       ("1-000-2", withdrawn_listing)])
                       (Some "bike") None None None 10 0 no_trace)
                sample_leaf res)
      as (q & sq & ranked & Hq & _ & Hr & Hall).
    + exact (moderated_engine_respects _).
    + repeat split.
      * intros d Hd. unfold withdrawn_doc in Hd. unfold sample_leaf.
        cbn [jsval_eqb]. rewrite Hd. reflexivity.
      * intros d Hd. unfold invalid_doc in Hd. unfold sample_leaf.
        cbn [jsval_eqb]. rewrite Hd. reflexivity.
      * intros d (tags & Ht & Hin). unfold sample_leaf.
        cbn [jsval_eqb]. rewrite Ht.
        apply existsb_exists.
        destruct Hin as [Hin|Hin];
          [exists (VStr "Hide") | exists (VStr "Delete")];
          (split; [exact Hin | reflexivity]).
    + exact H.
    + cbn in Hq. inversion Hq; subst q. vm_compute in Hr.
      inversion Hr; subst ranked. exact Hall.
  - vm_compute in H. discriminate H.
Defined.
